(** * Pj3/Ex3.py: user-based collaborative filtering

    A shallow embedding of [load_ratings], [cosine_similarity] and
    [recommend] from [src/Pj3/Ex3.py], and the properties the
    specification states about them.  [save_recommendations] and [main]
    only read the console and write files and are not embedded.

    Conventions of the embedding.
    - Numbers.  The specification's data model takes a score to be a real
      number and states its numeric properties over real arithmetic, so
      Python numbers are embedded as [R]: [math.sqrt] is [sqrt] on
      non-negative arguments, [round(x, 2)] is rounding to the nearest
      hundredth with ties going to the even neighbour.  Comparisons of
      reals are decided by the axioms of the real numbers; the code is run
      on example stores by rewriting, in the last part of the file.
    - Dictionaries.  A Python [dict] keeps insertion order and the code
      iterates over it, so a dictionary is an association list with the
      entries in insertion order; the keys of a well-formed dictionary are
      pairwise distinct ([dict_wf]).
    - Sets.  [set(a.keys()) & set(b.keys())] is a [gset string]; its
      iteration order is the one of [elements].
    - Exceptions.  Python code that can raise returns a [result]; the
      theorems below show which exceptions cannot occur.
    - Output.  What the code prints is returned as a list of [stdout_line];
      the [logging.info] call of [recommend] has no influence on the
      returned value and is left out. *)

From Stdlib Require Import Reals Lra Lia ZArith.
From Stdlib Require Floats.
From stdpp Require Import base option list sorting strings gmap.

(** ** Exceptions and the result monad *)

Inductive exn : Type :=
  | KeyError (key : string)
  | ZeroDivisionError
  | OverflowError     (* raised by x ** 2 on a float whose square is too large *)
  | MathDomainError   (* the ValueError of math.sqrt on a negative number *)
  | InvalidRating (user item : string) (score : R)
                      (* the ValueError of line 15, with what its message names *)
  | OSError (msg : string). (* the file could not be opened or parsed *)

Inductive result (A : Type) : Type :=
  | Ok (a : A)
  | Raise (e : exn).
Arguments Ok {A} a.
Arguments Raise {A} e.

(** Sequencing, written [x ← m; k]: an exception of [m] skips [k]. *)
#[global] Instance result_bind : MBind result := λ A B k m,
  match m with
  | Ok a => k a
  | Raise e => Raise e
  end.

(** [for x in l: st = body st x], stopping at the first exception. *)
Fixpoint for_each {A S : Type} (body : S → A → result S) (l : list A) (st : S)
  : result S :=
  match l with
  | [] => Ok st
  | x :: l' => st' ← body st x ; for_each body l' st'
  end.

(** ** Decisions on real numbers *)

#[global] Instance Rle_decision (x y : R) : Decision (x <= y)%R := Rle_dec x y.
#[global] Instance Rlt_decision (x y : R) : Decision (x < y)%R := Rlt_dec x y.
#[global] Instance Req_decision : EqDecision R := Req_dec_T.

(** ** Insertion-ordered dictionaries *)

Abbreviation dict V := (list (string * V)).

Section dict_ops.
Context {V : Type}.

(** [d.keys()], [d.items()] is [d] itself. *)
Definition keys (d : dict V) : list string := d.*1.

(** The keys of a Python dictionary are pairwise distinct. *)
Definition dict_wf (d : dict V) : Prop := NoDup (keys d).

(** [d.get(k)] *)
Fixpoint get (d : dict V) (k : string) : option V :=
  match d with
  | [] => None
  | (k', v) :: d' => if decide (k' = k) then Some v else get d' k
  end.

(** [k in d] *)
Definition contains (d : dict V) (k : string) : bool :=
  bool_decide (is_Some (get d k)).

(** [d[k]] *)
Definition getitem (d : dict V) (k : string) : result V :=
  match get d k with
  | Some v => Ok v
  | None => Raise (KeyError k)
  end.

(** [d[k] = v]: overwrites in place, a new key goes to the end. *)
Fixpoint setitem (d : dict V) (k : string) (v : V) : dict V :=
  match d with
  | [] => [(k, v)]
  | (k', v') :: d' =>
      if decide (k' = k) then (k', v) :: d' else (k', v') :: setitem d' k v
  end.

(** [d.setdefault(k, v)] (the returned value is not used by the code). *)
Definition setdefault (d : dict V) (k : string) (v : V) : dict V :=
  if contains d k then d else setitem d k v.
End dict_ops.

Abbreviation rating_vector := (dict R).
Abbreviation store := (dict rating_vector).
Abbreviation prediction := (string * R)%type.

(** ** Numeric primitives *)

Section numeric.
Local Open Scope R_scope.

(** [x / y] *)
Definition py_div (x y : R) : result R :=
  if decide (y = 0) then Raise ZeroDivisionError else Ok (x / y).

(** [math.sqrt(x)] *)
Definition math_sqrt (x : R) : result R :=
  if decide (x < 0) then Raise MathDomainError else Ok (sqrt x).

(** [sum(f(item) for item in items)]: starts from 0, adds left to right. *)
Definition py_sum (f : string → result R) (items : list string) : result R :=
  for_each (λ acc item, x ← f item ; Ok (acc + x)) items 0.

(** Nearest integer, ties to even. *)
Definition round_half_even (x : R) : Z :=
  let n := Int_part x in
  let f := x - IZR n in
  if decide (f < 1 / 2) then n
  else if decide (1 / 2 < f) then (n + 1)%Z
  else if Z.even n then n else (n + 1)%Z.

(** [round(x, 2)] *)
Definition round2 (x : R) : R := IZR (round_half_even (x * 100)) / 100.
End numeric.

(** ** [load_ratings] *)

Inductive stdout_line : Type :=
  | ReadFailed (e : exn)          (* "reading the file failed: <e>" *)
  | UserNotFound (user_id : string). (* "user <user_id> does not exist." *)

Section load.
Local Open Scope R_scope.

(** The two nested validation loops, lines 12-15. *)
Definition check_score (user : string) (_ : ()) (entry : string * R)
  : result () :=
  let '(item, score) := entry in
  if decide (0 <= score ∧ score <= 5) then Ok ()
  else Raise (InvalidRating user item score).

Definition check_user (_ : ()) (entry : string * rating_vector) : result () :=
  let '(user, items) := entry in
  for_each (check_score user) items ().

Definition validate (data : store) : result () :=
  for_each check_user data ().

(** [parsed] is the outcome of opening the file and of [json.load]. *)
Definition load_ratings (parsed : result store) : list stdout_line * store :=
  match (data ← parsed ; _ ← validate data ; Ok data) with
  | Ok data => ([], data)
  | Raise e => ([ReadFailed e], [])
  end.
End load.

(** ** [cosine_similarity] *)

Section similarity.
Local Open Scope R_scope.

Definition common_items (user_ratings1 user_ratings2 : rating_vector)
  : gset string :=
  list_to_set (keys user_ratings1) ∩ list_to_set (keys user_ratings2).

Definition cosine_similarity (user_ratings1 user_ratings2 : rating_vector)
  : result R :=
  let common_set := common_items user_ratings1 user_ratings2 in
  let common := elements common_set in
  if decide (common_set = ∅) then Ok 0
  else
    sum1 ← py_sum (λ item, x ← getitem user_ratings1 item ;
                            y ← getitem user_ratings2 item ; Ok (x * y))
                   common ;
    sum1_sq ← py_sum (λ item, x ← getitem user_ratings1 item ; Ok (x ^ 2))
                      common ;
    sum2_sq ← py_sum (λ item, y ← getitem user_ratings2 item ; Ok (y ^ 2))
                      common ;
    r1 ← math_sqrt sum1_sq ;
    r2 ← math_sqrt sum2_sq ;
    let denominator := r1 * r2 in
    if decide (denominator ≠ 0) then py_div sum1 denominator else Ok 0.
End similarity.

(** ** [recommend] *)

Section recommend.
Local Open Scope R_scope.

(** [d[k] += x] *)
Definition add_to (d : dict R) (k : string) (x : R) : result (dict R) :=
  old ← getitem d k ; Ok (setitem d k (old + x)).

(** Body of the inner loop, lines 46-50. *)
Definition accumulate_item (target_ratings : rating_vector) (sim : R)
    (st : dict R * dict R) (entry : string * R) : result (dict R * dict R) :=
  let '(scores, sim_sums) := st in
  let '(item, rating) := entry in
  if contains target_ratings item then Ok (scores, sim_sums)
  else
    let scores := setdefault scores item 0 in
    let sim_sums := setdefault sim_sums item 0 in
    scores ← add_to scores item (sim * rating) ;
    sim_sums ← add_to sim_sums item sim ;
    Ok (scores, sim_sums).

(** Body of the outer loop, lines 41-50. *)
Definition accumulate_user (user_id : string) (target_ratings : rating_vector)
    (st : dict R * dict R) (entry : string * rating_vector)
  : result (dict R * dict R) :=
  let '(other_user, other_ratings) := entry in
  if decide (other_user = user_id) then Ok st
  else
    sim ← cosine_similarity target_ratings other_ratings ;
    for_each (accumulate_item target_ratings sim) other_ratings st.

(** Lines 37-50: the two accumulators after the loop over the store. *)
Definition aggregate (user_id : string) (target_ratings : rating_vector)
    (ratings : store) : result (dict R * dict R) :=
  for_each (accumulate_user user_id target_ratings) ratings ([], []).

(** Body of the prediction loop, lines 54-56. *)
Definition predict_item (scores sim_sums : dict R)
    (predictions : list prediction) (item : string)
  : result (list prediction) :=
  s ← getitem sim_sums item ;
  if decide (s ≠ 0) then
    w ← getitem scores item ;
    predicted_score ← py_div w s ;
    Ok (predictions ++ [(item, round2 predicted_score)])
  else Ok predictions.

(** Lines 52-56. *)
Definition predict (scores sim_sums : dict R) : result (list prediction) :=
  for_each (predict_item scores sim_sums) (keys scores) [].

(** [predictions.sort(key=lambda x: x[1], reverse=True)]: a stable sort
    into descending order of the score; entries of equal score keep the
    order they had.  A stable sort has one possible outcome, computed here
    by insertion. *)
Fixpoint insert_desc (x : prediction) (l : list prediction) : list prediction :=
  match l with
  | [] => [x]
  | y :: l' => if decide (x.2 < y.2) then y :: insert_desc x l' else x :: l
  end.

Definition sort_desc (l : list prediction) : list prediction :=
  foldr insert_desc [] l.

(** [l[:n]] *)
Definition py_slice {A : Type} (l : list A) (n : Z) : list A :=
  if decide (0 <= n)%Z then take (Z.to_nat n) l
  else take (Z.to_nat (Z.of_nat (length l) + n)) l.

(** Lines 37-57: the sorted list of all predictions. *)
Definition ranking (user_id : string) (target_ratings : rating_vector)
    (ratings : store) : result (list prediction) :=
  '(scores, sim_sums) ← aggregate user_id target_ratings ratings ;
  predictions ← predict scores sim_sums ;
  Ok (sort_desc predictions).

Definition recommend (user_id : string) (ratings : store) (top_n : Z)
  : result (list stdout_line * list prediction) :=
  match get ratings user_id with
  | None | Some [] => Ok ([UserNotFound user_id], [])
  | Some target_ratings =>
      predictions ← ranking user_id target_ratings ratings ;
      Ok ([], py_slice predictions top_n)
  end.
End recommend.


(** ** [save_recommendations] and [main] *)

(** The lines on the console during [main].  A recommendation is printed
    and written as ["<item>: <score>"]; a line keeps the two parts. *)
Inductive console_line : Type :=
  | Printed (l : stdout_line)     (* printed by [load_ratings] or [recommend] *)
  | Prompt                        (* the prompt of [input] *)
  | ResultsHeader                 (* "recommendations:" *)
  | ResultLine (item : string) (score : R)
  | NoResults                     (* "no recommendations." *)
  | WriteFailed (e : exn).        (* "writing the recommendations failed: <e>" *)

Section main.
Local Open Scope R_scope.

(** [opened] is the outcome of opening and writing the file.  The result is
    what is printed and the lines of [recommendations.txt], one for each
    entry, or [None] when the file was not written. *)
Definition save_recommendations (recommendations : list prediction)
    (opened : result ()) : list console_line * option (list prediction) :=
  match opened with
  | Ok _ => ([], Some recommendations)
  | Raise e => ([WriteFailed e], None)
  end.

(** [parsed] is the outcome of reading [ratings.json], [user_id] is
    [input(...).strip()], [opened] the outcome of writing the file; the
    default [top_n = 3] of [recommend] is used. *)
Definition main (parsed : result store) (user_id : string) (opened : result ())
  : result (list console_line * option (list prediction)) :=
  let '(out, ratings) := load_ratings parsed in
  match ratings with
  | [] => Ok (Printed <$> out, None)
  | _ :: _ =>
      '(out', recommendations) ← recommend user_id ratings 3 ;
      let console := (Printed <$> out) ++ [Prompt] ++ (Printed <$> out') in
      match recommendations with
      | _ :: _ =>
          let '(out'', file) := save_recommendations recommendations opened in
          Ok (console ++ [ResultsHeader]
                ++ ((λ p, ResultLine p.1 p.2) <$> recommendations) ++ out'',
              file)
      | [] => Ok (console ++ [NoResults], None)
      end
  end.
End main.

(** ** The arithmetic of the code in binary64

    CPython computes on IEEE 754 binary64 numbers ([float]).  The module
    embeds lines 21-30 and 37-56 once more on primitive floats, the
    arithmetic the interpreter uses: [+], [*], [/] and [math.sqrt] round to
    nearest, [x ** 2] raises [OverflowError] when the square of a finite
    number is infinite, and [round(x, 2)] rounds the exact value of [x].
    It is used where the result in binary64 differs from the result over
    the reals.

    A Python [set] is iterated in an order that depends on the hashes of
    its elements and on how it was built; the module takes the order in
    which [common_items] is iterated as an argument. *)

Module Binary64.
Import Stdlib.Floats.Floats.
Local Open Scope float_scope.

Abbreviation rating_vector := (dict float).
Abbreviation store := (dict rating_vector).
Abbreviation prediction := (string * float)%type.

(** [x / y] *)
Definition py_div (x y : float) : result float :=
  if y =? 0 then Raise ZeroDivisionError else Ok (x / y).

(** [math.sqrt(x)] *)
Definition math_sqrt (x : float) : result float :=
  if x <? 0 then Raise MathDomainError else Ok (sqrt x).

(** [x ** 2] *)
Definition py_pow2 (x : float) : result float :=
  let y := x * x in
  if is_infinity y && negb (is_infinity x) then Raise OverflowError else Ok y.

(** [sum(f(item) for item in items)] *)
Definition py_sum (f : string → result float) (items : list string)
  : result float :=
  for_each (λ acc item, x ← f item ; Ok (acc + x)) items 0.

(** The integer nearest to [n / d], ties to the even one ([0 < d]). *)
Definition nearest_even_quotient (n d : Z) : Z :=
  let q := (n / d)%Z in
  let r := (n mod d)%Z in
  if (2 * r <? d)%Z then q
  else if (d <? 2 * r)%Z then (q + 1)%Z
  else if Z.even q then q else (q + 1)%Z.

(** [round(x, 2)]: the float nearest to the exact value of [x] rounded to
    two decimals, ties to even.  From [2 ^ 46] on the floats are more than
    0.01 apart and [x] itself is that float. *)
Definition round2 (x : float) : float :=
  match Prim2SF x with
  | S754_finite s m e =>
      if (abs x <? 0x1p46) then
        let n := (Zpos m * 100)%Z in
        let k := if (0 <=? e)%Z then (n * 2 ^ e)%Z
                 else nearest_even_quotient n (2 ^ (- e)) in
        let r := of_uint63 (Uint63.of_Z k) / 100 in
        if s then - r else r
      else x
  | _ => x
  end.

(** Lines 23-30, with the set [common_items] iterated as [common]. *)
Definition cosine_similarity_over (common : list string)
    (user_ratings1 user_ratings2 : rating_vector) : result float :=
  if bool_decide (common = []) then Ok 0
  else
    sum1 ← py_sum (λ item, x ← getitem user_ratings1 item ;
                            y ← getitem user_ratings2 item ; Ok (x * y))
                   common ;
    sum1_sq ← py_sum (λ item, x ← getitem user_ratings1 item ; py_pow2 x)
                      common ;
    sum2_sq ← py_sum (λ item, y ← getitem user_ratings2 item ; py_pow2 y)
                      common ;
    r1 ← math_sqrt sum1_sq ;
    r2 ← math_sqrt sum2_sq ;
    let denominator := r1 * r2 in
    if negb (denominator =? 0) then py_div sum1 denominator else Ok 0.

(** [common] is an order in which Python can iterate
    [set(a.keys()) & set(b.keys())]. *)
Definition iteration_order (a b : rating_vector) (common : list string)
  : Prop :=
  NoDup common ∧ ∀ i, i ∈ common ↔ i ∈ keys a ∧ i ∈ keys b.

(** [cosine_similarity], with the iteration order chosen by [order]. *)
Definition cosine_similarity
    (order : rating_vector → rating_vector → list string)
    (user_ratings1 user_ratings2 : rating_vector) : result float :=
  cosine_similarity_over (order user_ratings1 user_ratings2)
    user_ratings1 user_ratings2.

(** One iteration order: the common items as the first operand lists
    them. *)
Definition first_operand_order (a b : rating_vector) : list string :=
  filter (λ k, k ∈ keys b) (keys a).

(** [d[k] += x] *)
Definition add_to (d : dict float) (k : string) (x : float)
  : result (dict float) :=
  old ← getitem d k ; Ok (setitem d k (old + x)).

(** Lines 46-50. *)
Definition accumulate_item (target_ratings : rating_vector) (sim : float)
    (st : dict float * dict float) (entry : string * float)
  : result (dict float * dict float) :=
  let '(scores, sim_sums) := st in
  let '(item, rating) := entry in
  if contains target_ratings item then Ok (scores, sim_sums)
  else
    let scores := setdefault scores item 0 in
    let sim_sums := setdefault sim_sums item 0 in
    scores ← add_to scores item (sim * rating) ;
    sim_sums ← add_to sim_sums item sim ;
    Ok (scores, sim_sums).

(** Lines 41-50. *)
Definition accumulate_user
    (order : rating_vector → rating_vector → list string)
    (user_id : string) (target_ratings : rating_vector)
    (st : dict float * dict float) (entry : string * rating_vector)
  : result (dict float * dict float) :=
  let '(other_user, other_ratings) := entry in
  if decide (other_user = user_id) then Ok st
  else
    sim ← cosine_similarity order target_ratings other_ratings ;
    for_each (accumulate_item target_ratings sim) other_ratings st.

(** Lines 37-50. *)
Definition aggregate (order : rating_vector → rating_vector → list string)
    (user_id : string) (target_ratings : rating_vector) (ratings : store)
  : result (dict float * dict float) :=
  for_each (accumulate_user order user_id target_ratings) ratings ([], []).

(** Lines 54-56. *)
Definition predict_item (scores sim_sums : dict float)
    (predictions : list prediction) (item : string)
  : result (list prediction) :=
  s ← getitem sim_sums item ;
  if negb (s =? 0) then
    w ← getitem scores item ;
    predicted_score ← py_div w s ;
    Ok (predictions ++ [(item, round2 predicted_score)])
  else Ok predictions.

(** Lines 52-56. *)
Definition predict (scores sim_sums : dict float) : result (list prediction) :=
  for_each (predict_item scores sim_sums) (keys scores) [].

(** Lines 37-56: the list [predictions] before it is sorted. *)
Definition predictions (order : rating_vector → rating_vector → list string)
    (user_id : string) (target_ratings : rating_vector) (ratings : store)
  : result (list prediction) :=
  '(scores, sim_sums) ← aggregate order user_id target_ratings ratings ;
  predict scores sim_sums.

(** The real number a finite float stands for. *)
Definition to_R (x : float) : R :=
  match Prim2SF x with
  | S754_finite s m e =>
      (IZR (if s then Zneg m else Zpos m) * powerRZ 2 e)%R
  | _ => 0%R
  end.

Definition vector_to_R (rv : rating_vector) : dict R :=
  (λ e, (e.1, to_R e.2)) <$> rv.

Definition store_to_R (ratings : store) : dict (dict R) :=
  (λ e, (e.1, vector_to_R e.2)) <$> ratings.

(** *** Example stores *)

(** The quotient for ["c"] is 3/8 over the reals. *)
Definition rounding_store : store :=
  [("u1", [("a", 0); ("b", 1)]);
   ("u2", [("a", 0); ("b", 1); ("c", 0)]);
   ("u3", [("a", 4); ("b", 3); ("c", 1)])]%string.

(** A positive score in range whose square is below the smallest float;
    in JSON it is written [2.409919865102884e-181]. *)
Definition tiny_vector : rating_vector := [("a", 0x1p-600)]%string.

(** Two users whose products of scores are 1, [2 ^ -53] and [2 ^ -53]. *)
Definition order_vector_a : rating_vector :=
  [("i", 1); ("j", 0x1p-26); ("k", 0x1p-26)]%string.
Definition order_vector_b : rating_vector :=
  [("i", 1); ("j", 0x1p-27); ("k", 0x1p-27)]%string.
End Binary64.
(** * Definitions for the statements and proofs *)

(** [Rsum l] is the sum of a list of reals. *)
Definition Rsum (l : list R) : R := foldr Rplus 0%R l.
Arguments Rsum : simpl never.

Section spec_defs.
Local Open Scope R_scope.
Implicit Types (a b : rating_vector) (l : list string).

(** ** The similarity of the specification *)

(** The score [a] gives to [item]; only used on items [a] has rated. *)
Definition rating (a : rating_vector) (item : string) : R :=
  default 0 (get a item).

Definition dot a b l : R := Rsum ((λ i, rating a i * rating b i) <$> l).

Definition sq_norm a l : R := Rsum ((λ i, rating a i ^ 2) <$> l).

(** The normalized dot product over an enumeration [l] of the common
    items, with the two conventions for 0. *)
Definition cosine_over a b l : R :=
  if decide (l = []) then 0
  else if decide (sqrt (sq_norm a l) = 0 ∨ sqrt (sq_norm b l) = 0) then 0
  else dot a b l / (sqrt (sq_norm a l) * sqrt (sq_norm b l)).

Definition similarity a b : R := cosine_over a b (elements (common_items a b)).

(** ** The loops of [recommend] without exceptions

    These follow the code line by line and leave out the cases that raise;
    the lemmas [aggregate_closed] and [ranking_ok] show that the code
    computes them. *)

(** [d.setdefault(k, 0); d[k] += x] *)
Definition dict_add (d : dict R) (k : string) (x : R) : dict R :=
  setitem d k (rating d k + x).

Definition tally (l : list (string * R)) (d : dict R) : dict R :=
  foldl (λ d p, dict_add d p.1 p.2) d l.

(** The triples (item, similarity, rating) the inner loop body adds to the
    accumulators, in the order of the two loops. *)
Definition contributions (user_id : string) (t : rating_vector)
    (ratings : store) : list (string * (R * R)) :=
  ratings ≫= (λ p,
    if decide (p.1 = user_id) then []
    else (λ e, (e.1, (similarity t p.2, e.2)))
           <$> filter (λ e, e.1 ∉ keys t) p.2).

Definition accumulate (st : dict R * dict R) (c : string * (R * R))
  : dict R * dict R :=
  (dict_add st.1 c.1 (c.2.1 * c.2.2), dict_add st.2 c.1 c.2.1).

Definition predicted (scores sim_sums : dict R) (item : string)
  : option prediction :=
  if decide (rating sim_sums item ≠ 0)
  then Some (item, round2 (rating scores item / rating sim_sums item))
  else None.

Definition scores_of (user_id : string) (t : rating_vector) (ratings : store)
  : dict R :=
  tally ((λ c, (c.1, c.2.1 * c.2.2)) <$> contributions user_id t ratings) [].

Definition sim_sums_of (user_id : string) (t : rating_vector) (ratings : store)
  : dict R :=
  tally ((λ c, (c.1, c.2.1)) <$> contributions user_id t ratings) [].

(** The list [predictions] of line 56, before it is sorted. *)
Definition predictions_of (user_id : string) (t : rating_vector)
    (ratings : store) : list prediction :=
  omap (predicted (scores_of user_id t ratings) (sim_sums_of user_id t ratings))
       (keys (scores_of user_id t ratings)).

(** Keeps the first occurrence of every element: the order of the keys of
    a dictionary filled by [setdefault]. *)
Fixpoint dedup_first (l : list string) : list string :=
  match l with
  | [] => []
  | x :: l' => x :: filter (λ y, y ≠ x) (dedup_first l')
  end.

(** ** The prediction rule of the specification *)

(** The other users that rated [item], in store order. *)
Definition other_raters (user_id : string) (ratings : store) (item : string)
  : list (string * rating_vector) :=
  filter (λ p, p.1 ≠ user_id ∧ item ∈ keys p.2) ratings.

Definition weighted_sum (user_id : string) (t : rating_vector)
    (ratings : store) (item : string) : R :=
  Rsum ((λ p, similarity t p.2 * rating p.2 item)
          <$> other_raters user_id ratings item).

Definition similarity_sum (user_id : string) (t : rating_vector)
    (ratings : store) (item : string) : R :=
  Rsum ((λ p, similarity t p.2) <$> other_raters user_id ratings item).

(** The prediction of the specification for one item. *)
Definition predicted_spec (user_id : string) (t : rating_vector)
    (ratings : store) (item : string) : option prediction :=
  if decide (similarity_sum user_id t ratings item ≠ 0)
  then Some (item, round2 (weighted_sum user_id t ratings item
                           / similarity_sum user_id t ratings item))
  else None.

(** Items the target has not rated and some other user has. *)
Definition candidate (user_id : string) (t : rating_vector)
    (ratings : store) (item : string) : Prop :=
  (item ∉ keys t) ∧ other_raters user_id ratings item ≠ [].

(** The candidate items in the order the loops of lines 40-50 meet them:
    users in store order, the items of a user in that user's order. *)
Definition encounter_sequence (user_id : string) (t : rating_vector)
    (ratings : store) : list string :=
  ratings ≫= (λ p,
    if decide (p.1 = user_id) then []
    else filter (λ i, i ∉ keys t) (keys p.2)).

(** The first occurrence of [x] in [l] comes before every occurrence of [y]. *)
Definition first_before (l : list string) (x y : string) : Prop :=
  ∃ pre post, l = pre ++ x :: post ∧ (x ∉ pre) ∧ (y ∉ pre) ∧ x ≠ y.

(** [b] with every score multiplied by [c]. *)
Definition scale (c : R) (b : rating_vector) : rating_vector :=
  (λ e, (e.1, c * e.2)) <$> b.

(** ** Vocabulary of the theorems *)

(** Descending order of the scores. *)
Definition sorted_desc (ps : list prediction) : Prop :=
  StronglySorted (λ x y, y.2 <= x.2) ps.

(** The list [predictions] after line 57; empty when line 36 returned. *)
Definition ranked (user_id : string) (ratings : store) : list prediction :=
  match get ratings user_id with
  | None | Some [] => []
  | Some t =>
      match ranking user_id t ratings with Ok ps => ps | Raise _ => [] end
  end.

(** [preds] is the list [predictions] the code has built when it reaches
    line 57, before the sort; it is empty when line 36 returned. *)
Definition computed_predictions (user_id : string) (ratings : store)
    (preds : list prediction) : Prop :=
  match get ratings user_id with
  | None | Some [] => preds = []
  | Some t =>
      ∃ scores sim_sums,
        aggregate user_id t ratings = Ok (scores, sim_sums)
        ∧ predict scores sim_sums = Ok preds
  end.

(** Every score lies in [0, 5]. *)
Definition vector_in_range (rv : rating_vector) : Prop :=
  ∀ i s, (i, s) ∈ rv → 0 <= s <= 5.

Definition store_in_range (ratings : store) : Prop :=
  ∀ u rv, (u, rv) ∈ ratings → vector_in_range rv.

(** [(user, item, score)] is the first rating out of range that the loops
    of lines 12-15 meet: everything before it is in range. *)
Definition first_violation (data : store) (user item : string) (score : R)
  : Prop :=
  ∃ pre items post ipre ipost,
    data = pre ++ (user, items) :: post
    ∧ items = ipre ++ (item, score) :: ipost
    ∧ store_in_range pre
    ∧ vector_in_range ipre
    ∧ ¬ (0 <= score <= 5).

(** The store and each of its rating vectors have distinct keys. *)
Definition store_wf (ratings : store) : Prop :=
  dict_wf ratings ∧ ∀ u rv, (u, rv) ∈ ratings → dict_wf rv.

(** ** Example stores *)

(** Scenario A of the specification. *)
Definition scenario_a : store :=
  [("u1", [("a", 5); ("b", 3)]);
   ("u2", [("a", 4); ("c", 5)]);
   ("u3", [("b", 2); ("c", 4)])]%string.

(** Two candidate items with the same prediction; the user lists ["c"]
    before ["b"]. *)
Definition tie_store : store :=
  [("u1", [("a", 1)]); ("u2", [("a", 1); ("c", 1); ("b", 1)])]%string.

(** The first user is in the store and has rated nothing. *)
Definition empty_target_store : store :=
  [("u1", []); ("u2", [("a", 3)])]%string.

(** The first user shares no item with anybody. *)
Definition scenario_c : store :=
  [("u1", [("z", 4)]); ("u2", [("a", 3); ("b", 5)])]%string.

(** The example of the specification: a score of 5.5. *)
Definition invalid_data : store := [("u1", [("i1", 11 / 2)])]%string.
End spec_defs.

(** * Properties *)

(** ** Dictionaries *)

Section dict_facts.
Context {V : Type}.
Implicit Types (d : dict V) (k : string) (v : V).

Lemma get_Some_elem_of d k v : get d k = Some v → (k, v) ∈ d.
Proof.
  induction d as [|[k' v'] d IH]; simpl; [done|].
  case_decide; intros Hg.
  - simplify_eq. left.
  - right. auto.
Qed.

Lemma get_is_Some d k : is_Some (get d k) ↔ k ∈ keys d.
Proof.
  unfold keys. induction d as [|[k' v'] d IH]; simpl.
  - split; [by intros [? ?]|by intros ?%elem_of_nil].
  - rewrite elem_of_cons. case_decide as Hk.
    + split; eauto.
    + rewrite IH. split; [by right|]. by intros [?|?].
Qed.

Lemma get_None d k : get d k = None ↔ k ∉ keys d.
Proof. rewrite <- get_is_Some, eq_None_not_Some. done. Qed.

Lemma contains_true d k : contains d k = true ↔ k ∈ keys d.
Proof. unfold contains. rewrite bool_decide_eq_true. apply get_is_Some. Qed.

Lemma contains_false d k : contains d k = false ↔ k ∉ keys d.
Proof. unfold contains. rewrite bool_decide_eq_false, get_is_Some. done. Qed.


Lemma getitem_elem_of d k : k ∈ keys d → ∃ v, getitem d k = Ok v ∧ get d k = Some v.
Proof.
  intros [v Hv]%get_is_Some. exists v. unfold getitem. by rewrite Hv.
Qed.

Lemma get_setitem d k v k' :
  get (setitem d k v) k' = if decide (k = k') then Some v else get d k'.
Proof.
  induction d as [|[k0 v0] d IH]; simpl.
  - done.
  - destruct (decide (k0 = k)) as [->|Hne]; simpl.
    + destruct (decide (k = k')); done.
    + rewrite IH. destruct (decide (k0 = k')) as [->|]; [|done].
      by rewrite decide_False.
Qed.

Lemma keys_setitem_present d k v : k ∈ keys d → keys (setitem d k v) = keys d.
Proof.
  unfold keys. induction d as [|[k0 v0] d IH]; simpl.
  - by intros ?%elem_of_nil.
  - intros Hin. case_decide as Hk; simpl; [done|].
    f_equal. apply IH. by apply elem_of_cons in Hin as [?|?].
Qed.

Lemma keys_setitem_absent d k v : k ∉ keys d → keys (setitem d k v) = keys d ++ [k].
Proof.
  unfold keys. induction d as [|[k0 v0] d IH]; simpl; [done|].
  intros Hin. apply not_elem_of_cons in Hin as [Hne Hin].
  rewrite decide_False by done. simpl. f_equal. by apply IH.
Qed.

Lemma setitem_setitem d k v w : setitem (setitem d k v) k w = setitem d k w.
Proof.
  induction d as [|[k0 v0] d IH]; simpl.
  - by rewrite decide_True.
  - destruct (decide (k0 = k)) as [->|Hne]; simpl.
    + by rewrite decide_True.
    + rewrite decide_False by done. by rewrite IH.
Qed.

Lemma setdefault_present d k v : k ∈ keys d → setdefault d k v = d.
Proof. intros Hk%contains_true. unfold setdefault. by rewrite Hk. Qed.

Lemma setdefault_absent d k v : k ∉ keys d → setdefault d k v = setitem d k v.
Proof. intros Hk%contains_false. unfold setdefault. by rewrite Hk. Qed.

(** After [d.setdefault(k, v)] the key is there, so [d[k]] cannot raise. *)
Lemma elem_of_keys_setdefault d k v : k ∈ keys (setdefault d k v).
Proof.
  destruct (decide (k ∈ keys d)) as [Hk|Hk].
  - by rewrite setdefault_present.
  - rewrite setdefault_absent, keys_setitem_absent by done.
    set_solver.
Qed.
End dict_facts.

(** ** Sums of real numbers *)

Section sums.
Local Open Scope R_scope.

Lemma Rsum_nil : Rsum [] = 0.
Proof. done. Qed.

Lemma Rsum_cons x l : Rsum (x :: l) = x + Rsum l.
Proof. done. Qed.

Lemma Rsum_app l1 l2 : Rsum (l1 ++ l2) = Rsum l1 + Rsum l2.
Proof.
  induction l1 as [|x l1 IH]; simpl; rewrite ?Rsum_nil, ?Rsum_cons; [lra|].
  rewrite IH. lra.
Qed.

Lemma Rsum_Permutation l1 l2 : l1 ≡ₚ l2 → Rsum l1 = Rsum l2.
Proof. induction 1; rewrite ?Rsum_cons; lra. Qed.

Lemma Rsum_nonneg l : Forall (λ x, 0 <= x) l → 0 <= Rsum l.
Proof. induction 1; rewrite ?Rsum_nil, ?Rsum_cons; lra. Qed.

Lemma for_each_sum (f : string → result R) (g : string → R) items acc :
  (∀ i, i ∈ items → f i = Ok (g i)) →
  for_each (λ acc item, x ← f item ; Ok (acc + x)) items acc
  = Ok (acc + Rsum (g <$> items)).
Proof.
  revert acc. induction items as [|i items IH]; intros acc Hf; cbn [for_each].
  - rewrite fmap_nil, Rsum_nil. f_equal. lra.
  - rewrite (Hf i) by left. cbn [mbind result_bind]. rewrite IH.
    + rewrite fmap_cons, Rsum_cons. f_equal. lra.
    + intros j Hj. apply Hf. by right.
Qed.

(** [sum] over a generator that does not raise is the sum of its values. *)
Lemma py_sum_ok (f : string → result R) (g : string → R) items :
  (∀ i, i ∈ items → f i = Ok (g i)) → py_sum f items = Ok (Rsum (g <$> items)).
Proof.
  intros Hf. unfold py_sum. rewrite (for_each_sum f g) by done. f_equal. lra.
Qed.
End sums.

(** ** Cosine similarity in closed form *)

Section similarity_facts.
Local Open Scope R_scope.
Implicit Types (a b : rating_vector) (l : list string).

Lemma elem_of_common_items a b i :
  i ∈ common_items a b ↔ i ∈ keys a ∧ i ∈ keys b.
Proof.
  unfold common_items. by rewrite elem_of_intersection, !elem_of_list_to_set.
Qed.


Lemma getitem_rating a i : i ∈ keys a → getitem a i = Ok (rating a i).
Proof.
  intros (v & -> & Hv)%getitem_elem_of. unfold rating. by rewrite Hv.
Qed.

Lemma sq_norm_nonneg a l : 0 <= sq_norm a l.
Proof.
  unfold sq_norm. apply Rsum_nonneg, Forall_fmap, Forall_forall.
  intros i _. simpl. apply pow2_ge_0.
Qed.

Lemma math_sqrt_sq_norm a l : math_sqrt (sq_norm a l) = Ok (sqrt (sq_norm a l)).
Proof.
  unfold math_sqrt. pose proof (sq_norm_nonneg a l).
  rewrite decide_False; [done|lra].
Qed.

(** The code computes the closed form and raises nothing: no [KeyError],
    no [MathDomainError], no [ZeroDivisionError]. *)
Lemma cosine_similarity_ok a b : cosine_similarity a b = Ok (similarity a b).
Proof.
  unfold cosine_similarity, similarity, cosine_over.
  set (l := elements (common_items a b)).
  assert (Hl : ∀ i, i ∈ l → i ∈ keys a ∧ i ∈ keys b).
  { intros i Hi. apply elem_of_common_items. by apply elem_of_elements. }
  destruct (decide (common_items a b = ∅)) as [He|Hne].
  { rewrite decide_True; [done|]. subst l. rewrite He. apply elements_empty. }
  rewrite decide_False.
  2:{ intros Hnil. by apply Hne, leibniz_equiv, elements_empty_inv. }
  assert (H1 : py_sum (λ item, x ← getitem a item ; y ← getitem b item ;
                                Ok (x * y)) l = Ok (dot a b l)).
  { apply py_sum_ok. intros i [Ha Hb]%Hl. rewrite (getitem_rating a) by done.
    cbn [mbind result_bind]. by rewrite getitem_rating. }
  assert (H2 : ∀ c, (∀ i, i ∈ l → i ∈ keys c) →
            py_sum (λ item, x ← getitem c item ; Ok (x ^ 2)) l
            = Ok (sq_norm c l)).
  { intros c Hc. apply py_sum_ok. intros i Hi%Hc. by rewrite getitem_rating. }
  rewrite H1, !H2 by (intros i Hi; by apply Hl in Hi as [? ?]).
  cbn [mbind result_bind].
  rewrite !math_sqrt_sq_norm. cbn [mbind result_bind].
  destruct (decide (sqrt (sq_norm a l) * sqrt (sq_norm b l) ≠ 0)) as [Hd|Hd].
  - rewrite decide_False by (intros [H0|H0]; apply Hd; rewrite H0; lra).
    unfold py_div. by rewrite decide_False.
  - rewrite decide_True; [done|].
    apply Rmult_integral. by destruct (decide (sqrt (sq_norm a l) * sqrt (sq_norm b l) = 0)).
Qed.
End similarity_facts.

(** ** Bounds on the similarity *)

Section similarity_bounds.
Local Open Scope R_scope.
Implicit Types (a b : rating_vector) (l : list string).

Lemma le_of_sqr_le (p q : R) : 0 <= q → p * p <= q * q → p <= q.
Proof. intros Hq Hpq. nra. Qed.

Lemma div_bounds (x d lo hi : R) :
  0 < d → lo * d <= x <= hi * d → lo <= x / d <= hi.
Proof.
  intros Hd Hx. assert (Hq : x = x / d * d) by (field; lra).
  set (q := x / d) in *. clearbody q. subst x. split; nra.
Qed.

Lemma cross_term_bound (x y D A B : R) :
  0 <= A → 0 <= B → D * D <= A * B → 2 * (x * y * D) <= x * x * B + y * y * A.
Proof.
  intros HA HB HD. apply le_of_sqr_le.
  - nra.
  - assert (H1 : 0 <= (x * x * B - y * y * A) * (x * x * B - y * y * A))
      by apply Rle_0_sqr.
    assert (H2 : 0 <= (x * y) * (x * y) * (A * B - D * D)).
    { apply Rmult_le_pos; nra. }
    nra.
Qed.

(** Cauchy-Schwarz over the common items. *)
Lemma dot_sqr_le a b l : dot a b l * dot a b l <= sq_norm a l * sq_norm b l.
Proof.
  unfold dot, sq_norm. induction l as [|i l IH].
  - rewrite !fmap_nil, !Rsum_nil. lra.
  - rewrite !fmap_cons, !Rsum_cons.
    fold (dot a b l) (sq_norm a l) (sq_norm b l) in *.
    pose proof (sq_norm_nonneg a l) as HA.
    pose proof (sq_norm_nonneg b l) as HB.
    pose proof (cross_term_bound (rating a i) (rating b i) _ _ _ HA HB IH).
    nra.
Qed.

Lemma dot_abs_le a b l :
  - (sqrt (sq_norm a l) * sqrt (sq_norm b l)) <= dot a b l
  <= sqrt (sq_norm a l) * sqrt (sq_norm b l).
Proof.
  pose proof (sq_norm_nonneg a l) as HA.
  pose proof (sq_norm_nonneg b l) as HB.
  pose proof (sqrt_pos (sq_norm a l)) as Ha.
  pose proof (sqrt_pos (sq_norm b l)) as Hb.
  pose proof (sqrt_sqrt _ HA) as Ha2.
  pose proof (sqrt_sqrt _ HB) as Hb2.
  pose proof (dot_sqr_le a b l) as Hcs.
  set (p := sqrt (sq_norm a l)) in *. set (q := sqrt (sq_norm b l)) in *.
  assert (Hpq : 0 <= p * q) by nra.
  assert (Hd : dot a b l * dot a b l <= (p * q) * (p * q)).
  { replace ((p * q) * (p * q)) with ((p * p) * (q * q)) by ring.
    by rewrite Ha2, Hb2. }
  split.
  - assert (- dot a b l <= p * q); [|lra].
    apply le_of_sqr_le; [done|]. nra.
  - by apply le_of_sqr_le.
Qed.

Lemma cosine_over_bounds a b l : -1 <= cosine_over a b l <= 1.
Proof.
  unfold cosine_over. repeat case_decide; try lra.
  pose proof (dot_abs_le a b l) as Hd.
  pose proof (sqrt_pos (sq_norm a l)) as Ha.
  pose proof (sqrt_pos (sq_norm b l)) as Hb.
  set (p := sqrt (sq_norm a l)) in *. set (q := sqrt (sq_norm b l)) in *.
  assert (Hpq : 0 < p * q).
  { apply Rmult_lt_0_compat; destruct (Req_dec_T p 0), (Req_dec_T q 0); tauto || lra. }
  apply div_bounds; [done|lra].
Qed.

Lemma cosine_over_Permutation a b l l' :
  l ≡ₚ l' → cosine_over a b l = cosine_over a b l'.
Proof.
  intros Hp. unfold cosine_over, dot, sq_norm.
  rewrite !(Rsum_Permutation _ _ (fmap_Permutation _ _ _ Hp)).
  destruct (decide (l = [])) as [Hl|Hl], (decide (l' = [])) as [Hl'|Hl'];
    try done; subst.
  - by apply Permutation_nil_l in Hp.
  - by apply Permutation_nil_r in Hp.
Qed.


(** Any duplicate-free enumeration of the common items gives the value. *)
Lemma similarity_enumeration a b l :
  NoDup l → (∀ i, i ∈ l ↔ i ∈ keys a ∧ i ∈ keys b) →
  similarity a b = cosine_over a b l.
Proof.
  intros Hnd Hl. apply cosine_over_Permutation, NoDup_Permutation.
  - apply NoDup_elements.
  - done.
  - intros i. by rewrite elem_of_elements, elem_of_common_items, Hl.
Qed.
End similarity_bounds.

(** ** The aggregation loops raise nothing *)

Section aggregate_facts.
Local Open Scope R_scope.
Implicit Types (d : dict R) (t rv : rating_vector) (ratings : store).

Lemma rating_setitem d k v k' :
  rating (setitem d k v) k' = if decide (k = k') then v else rating d k'.
Proof. unfold rating. rewrite get_setitem. by case_decide. Qed.

Lemma add_to_setdefault d k x :
  add_to (setdefault d k 0) k x = Ok (dict_add d k x).
Proof.
  unfold add_to, dict_add, getitem, rating.
  destruct (decide (k ∈ keys d)) as [Hk|Hk].
  - rewrite setdefault_present by done.
    apply get_is_Some in Hk as [v Hv]. by rewrite Hv.
  - rewrite setdefault_absent by done.
    rewrite get_setitem, decide_True by done. cbn [mbind result_bind].
    rewrite setitem_setitem. apply get_None in Hk. by rewrite Hk.
Qed.

Lemma accumulate_item_ok t sim st e :
  accumulate_item t sim st e
  = Ok (if contains t e.1 then st else accumulate st (e.1, (sim, e.2))).
Proof.
  destruct st as [scores sim_sums], e as [item r].
  unfold accumulate_item, accumulate. cbn [fst snd].
  destruct (contains t item); [done|]. by rewrite !add_to_setdefault.
Qed.

Lemma for_each_accumulate_item t sim rv st :
  for_each (accumulate_item t sim) rv st
  = Ok (foldl accumulate st
          ((λ e, (e.1, (sim, e.2))) <$> filter (λ e, e.1 ∉ keys t) rv)).
Proof.
  revert st. induction rv as [|e rv IH]; intros st; [done|].
  cbn [for_each]. rewrite accumulate_item_ok. cbn [mbind result_bind].
  rewrite IH, filter_cons. destruct (contains t e.1) eqn:Hc.
  - apply contains_true in Hc. by rewrite decide_False by (by intros H).
  - apply contains_false in Hc. by rewrite decide_True by done.
Qed.

Lemma accumulate_user_ok u t st (p : string * rating_vector) :
  accumulate_user u t st p
  = Ok (foldl accumulate st
          (if decide (p.1 = u) then []
           else (λ e, (e.1, (similarity t p.2, e.2)))
                  <$> filter (λ e, e.1 ∉ keys t) p.2)).
Proof.
  destruct p as [v rv]. unfold accumulate_user. cbn [fst snd].
  destruct (decide (v = u)) as [Hv|Hv]; [done|].
  rewrite cosine_similarity_ok. cbn [mbind result_bind].
  apply for_each_accumulate_item.
Qed.

Lemma for_each_accumulate_user u t ratings st :
  for_each (accumulate_user u t) ratings st
  = Ok (foldl accumulate st (contributions u t ratings)).
Proof.
  revert st. induction ratings as [|p ratings IH]; intros st; [done|].
  cbn [for_each]. rewrite accumulate_user_ok. cbn [mbind result_bind].
  rewrite IH. unfold contributions. by rewrite bind_cons, foldl_app.
Qed.

Lemma aggregate_ok u t ratings :
  aggregate u t ratings = Ok (foldl accumulate ([], []) (contributions u t ratings)).
Proof. apply for_each_accumulate_user. Qed.

Lemma foldl_accumulate st (l : list (string * (R * R))) :
  foldl accumulate st l
  = (tally ((λ c, (c.1, c.2.1 * c.2.2)) <$> l) st.1,
     tally ((λ c, (c.1, c.2.1)) <$> l) st.2).
Proof.
  revert st. induction l as [|c l IH]; intros st; [by destruct st|].
  cbn [foldl]. rewrite IH. done.
Qed.
End aggregate_facts.

(** ** What the accumulators hold *)

Section tally_facts.
Local Open Scope R_scope.
Implicit Types (d : dict R) (l : list (string * R)) (ks : list string).

Lemma keys_dict_add_present d k x : k ∈ keys d → keys (dict_add d k x) = keys d.
Proof. apply keys_setitem_present. Qed.

Lemma keys_dict_add_absent d k x :
  k ∉ keys d → keys (dict_add d k x) = keys d ++ [k].
Proof. apply keys_setitem_absent. Qed.

Lemma rating_dict_add d k x k' :
  rating (dict_add d k x) k'
  = if decide (k = k') then rating d k + x else rating d k'.
Proof. unfold dict_add. apply rating_setitem. Qed.

Lemma elem_of_dedup_first ks x : x ∈ dedup_first ks ↔ x ∈ ks.
Proof.
  induction ks as [|y ks IH]; [done|]. cbn [dedup_first].
  rewrite !elem_of_cons, list_elem_of_filter, IH.
  destruct (decide (x = y)); tauto.
Qed.

Lemma NoDup_dedup_first ks : NoDup (dedup_first ks).
Proof.
  induction ks as [|y ks IH]; cbn [dedup_first]; constructor.
  - rewrite list_elem_of_filter. by intros [? _].
  - by apply NoDup_filter.
Qed.

Lemma keys_tally l d :
  keys (tally l d) = keys d ++ filter (λ k, k ∉ keys d) (dedup_first l.*1).
Proof.
  revert d. induction l as [|[k x] l IH]; intros d.
  - cbn. by rewrite app_nil_r.
  - unfold tally in *. cbn [foldl fst snd fmap list_fmap dedup_first].
    rewrite IH. destruct (decide (k ∈ keys d)) as [Hk|Hk].
    + rewrite keys_dict_add_present, filter_cons_False by auto.
      f_equal. rewrite list_filter_filter_l; [done|].
      intros y Hy ->. done.
    + rewrite keys_dict_add_absent, filter_cons_True by done.
      rewrite <- app_assoc. cbn [app]. do 2 f_equal.
      rewrite list_filter_filter. apply list_filter_iff.
      intros y. rewrite elem_of_app, list_elem_of_singleton. tauto.
Qed.

Lemma rating_tally l d k :
  rating (tally l d) k = rating d k + Rsum (snd <$> filter (λ p, p.1 = k) l).
Proof.
  revert d. induction l as [|[k' x] l IH]; intros d.
  - unfold tally. cbn [foldl]. rewrite filter_nil, fmap_nil, Rsum_nil. lra.
  - unfold tally in *. cbn [foldl fst snd]. rewrite IH, rating_dict_add.
    destruct (decide (k' = k)) as [->|Hne].
    + rewrite filter_cons_True, fmap_cons, Rsum_cons by done. cbn [snd]. lra.
    + by rewrite filter_cons_False by done.
Qed.
End tally_facts.

(** ** The contributions, item by item *)

Section contributions_facts.
Local Open Scope R_scope.
Implicit Types (t rv : rating_vector) (ratings : store) (h : R → R → R).

Lemma rating_cons_eq rv k r : rating ((k, r) :: rv) k = r.
Proof. unfold rating. cbn [get]. by rewrite decide_True. Qed.

Lemma rating_cons_ne rv k r i : k ≠ i → rating ((k, r) :: rv) i = rating rv i.
Proof. intros Hne. unfold rating. cbn [get]. by rewrite decide_False. Qed.

Lemma keys_cons rv k r : keys ((k, r) :: rv) = k :: keys rv.
Proof. done. Qed.

(** One row of the store: a well-formed rating vector holds [i] at most
    once, so it contributes at most one term for [i]. *)
Lemma row_sum h t rv sim i :
  dict_wf rv → i ∉ keys t →
  Rsum (snd <$> filter (λ p, p.1 = i)
          ((λ c, (c.1, h c.2.1 c.2.2)) <$>
             ((λ e, (e.1, (sim, e.2))) <$> filter (λ e, e.1 ∉ keys t) rv)))
  = if contains rv i then h sim (rating rv i) else 0.
Proof.
  intros Hwf Hi. induction rv as [|[k r] rv IH].
  - by rewrite filter_nil, !fmap_nil, filter_nil, fmap_nil, Rsum_nil.
  - apply NoDup_cons in Hwf as [Hk Hwf]. specialize (IH Hwf).
    destruct (decide (k = i)) as [->|Hne].
    + rewrite filter_cons_True by done. rewrite !fmap_cons. cbn [fst snd].
      rewrite filter_cons_True, fmap_cons, Rsum_cons by done. cbn [snd].
      rewrite IH, rating_cons_eq.
      replace (contains rv i) with false
        by (symmetry; by apply contains_false).
      replace (contains ((i, r) :: rv) i) with true
        by (symmetry; apply contains_true; left).
      lra.
    + assert (contains ((k, r) :: rv) i = contains rv i) as ->.
      { unfold contains. cbn [get]. by rewrite decide_False. }
      rewrite rating_cons_ne by done. rewrite <- IH.
      destruct (decide (k ∈ keys t)) as [Hkt|Hkt].
      * by rewrite filter_cons_False by (by intros H).
      * rewrite filter_cons_True by done. rewrite !fmap_cons. cbn [fst snd].
        by rewrite filter_cons_False by done.
Qed.

(** Over the whole store the terms for [i] are those of the other users
    that rated [i]. *)
Lemma contributions_sum h u t ratings i :
  (∀ v rv, (v, rv) ∈ ratings → dict_wf rv) → i ∉ keys t →
  Rsum (snd <$> filter (λ p, p.1 = i)
          ((λ c, (c.1, h c.2.1 c.2.2)) <$> contributions u t ratings))
  = Rsum ((λ p, h (similarity t p.2) (rating p.2 i))
            <$> other_raters u ratings i).
Proof.
  intros Hwf Hi. unfold contributions, other_raters.
  induction ratings as [|[v rv] ratings IH].
  - done.
  - rewrite bind_cons, fmap_app, filter_app, fmap_app, Rsum_app, IH.
    2:{ intros v' rv' Hin. apply (Hwf v'). by right. }
    cbn [fst snd]. destruct (decide (v = u)) as [Hv|Hv].
    + rewrite filter_cons_False by (by intros [? _]).
      rewrite fmap_nil, filter_nil, fmap_nil, Rsum_nil. lra.
    + rewrite row_sum by (done || apply (Hwf v); left).
      destruct (contains rv i) eqn:Hc.
      * apply contains_true in Hc.
        rewrite filter_cons_True by done. by rewrite fmap_cons, Rsum_cons.
      * apply contains_false in Hc.
        rewrite filter_cons_False by (by intros [_ ?]). lra.
Qed.

Lemma fst_filter_fst {B : Type} (P : string → Prop) `{!∀ k, Decision (P k)}
    (d : dict B) :
  (filter (λ e, P e.1) d).*1 = filter P d.*1.
Proof.
  induction d as [|[k x] d IH]; [done|]. rewrite fmap_cons. cbn [fst].
  destruct (decide (P k)).
  - by rewrite !filter_cons_True, fmap_cons, IH by done.
  - by rewrite !filter_cons_False by done.
Qed.

Lemma contributions_items u t ratings :
  (contributions u t ratings).*1 = encounter_sequence u t ratings.
Proof.
  unfold contributions, encounter_sequence.
  induction ratings as [|[v rv] ratings IH]; [done|].
  rewrite !bind_cons, fmap_app, IH. f_equal. cbn [fst snd].
  destruct (decide (v = u)); [done|].
  rewrite <- list_fmap_compose. unfold keys.
  rewrite <- (fst_filter_fst (λ i, i ∉ keys t)).
  by apply list_fmap_ext.
Qed.

Lemma other_raters_nonempty u ratings i :
  other_raters u ratings i ≠ []
  ↔ ∃ v rv, (v, rv) ∈ ratings ∧ v ≠ u ∧ i ∈ keys rv.
Proof.
  unfold other_raters. split.
  - intros Hne. destruct (filter _ ratings) as [|[v rv] l] eqn:Hf; [done|].
    assert (Hin : (v, rv) ∈ filter (λ p, p.1 ≠ u ∧ i ∈ keys p.2) ratings)
      by (rewrite Hf; left).
    apply list_elem_of_filter in Hin as [[? ?] ?]. by exists v, rv.
  - intros (v & rv & Hin & Hv & Hi) Hnil.
    apply (filter_nil_not_elem_of _ _ (v, rv)) in Hnil; done.
Qed.

Lemma elem_of_encounter_sequence u t ratings i :
  i ∈ encounter_sequence u t ratings ↔ candidate u t ratings i.
Proof.
  unfold encounter_sequence, candidate.
  rewrite list_elem_of_bind, other_raters_nonempty. split.
  - intros ([v rv] & Hi & Hin). cbn [fst snd] in Hi.
    destruct (decide (v = u)); [by apply elem_of_nil in Hi|].
    apply list_elem_of_filter in Hi as [? ?]. split; [done|]. by exists v, rv.
  - intros (Hi & v & rv & Hin & Hv & Hrv). exists (v, rv). split; [|done].
    cbn [fst snd]. rewrite decide_False by done.
    by apply list_elem_of_filter.
Qed.
End contributions_facts.

(** ** The prediction loop and the whole of [recommend] *)

Section recommend_facts.
Local Open Scope R_scope.
Implicit Types (d scores sim_sums : dict R) (t rv : rating_vector).
Implicit Types (ratings : store) (ps : list prediction).

Lemma predict_item_ok scores sim_sums ps item :
  item ∈ keys scores → item ∈ keys sim_sums →
  predict_item scores sim_sums ps item
  = Ok (ps ++ option_list (predicted scores sim_sums item)).
Proof.
  intros Hs Hw. unfold predict_item, predicted.
  rewrite (getitem_rating sim_sums) by done. cbn [mbind result_bind].
  destruct (decide (rating sim_sums item ≠ 0)) as [Hne|He].
  - rewrite (getitem_rating scores) by done. cbn [mbind result_bind].
    unfold py_div. by rewrite decide_False by done.
  - cbn [option_list]. by rewrite app_nil_r.
Qed.

Lemma for_each_predict_item scores sim_sums ks ps :
  (∀ k, k ∈ ks → k ∈ keys scores ∧ k ∈ keys sim_sums) →
  for_each (predict_item scores sim_sums) ks ps
  = Ok (ps ++ omap (predicted scores sim_sums) ks).
Proof.
  revert ps. induction ks as [|k ks IH]; intros ps Hks.
  - cbn [for_each omap list_omap]. by rewrite app_nil_r.
  - destruct (Hks k) as [Hs Hw]; [left|].
    cbn [for_each]. rewrite predict_item_ok by done. cbn [mbind result_bind].
    rewrite IH by (intros k' Hk'; apply Hks; by right).
    rewrite <- app_assoc. do 2 f_equal.
    cbn [omap list_omap]. fold (omap (predicted scores sim_sums) ks).
    by destruct (predicted scores sim_sums k).
Qed.

Lemma filter_not_elem_of_nil (ks : list string) :
  filter (λ k, k ∉ @nil string) ks = ks.
Proof.
  induction ks as [|k ks IH]; [done|].
  rewrite filter_cons_True by apply not_elem_of_nil. by rewrite IH.
Qed.

Lemma keys_tally_nil (l : list (string * R)) :
  keys (tally l []) = dedup_first l.*1.
Proof. rewrite keys_tally. apply filter_not_elem_of_nil. Qed.

Lemma keys_scores_of u t ratings :
  keys (scores_of u t ratings) = dedup_first (encounter_sequence u t ratings).
Proof.
  unfold scores_of. rewrite keys_tally_nil, <- contributions_items.
  by rewrite <- list_fmap_compose.
Qed.

Lemma keys_sim_sums_of u t ratings :
  keys (sim_sums_of u t ratings) = dedup_first (encounter_sequence u t ratings).
Proof.
  unfold sim_sums_of. rewrite keys_tally_nil, <- contributions_items.
  by rewrite <- list_fmap_compose.
Qed.

Lemma rating_nil i : rating [] i = 0.
Proof. done. Qed.

Lemma rating_scores_of u t ratings i :
  (∀ v rv, (v, rv) ∈ ratings → dict_wf rv) → i ∉ keys t →
  rating (scores_of u t ratings) i = weighted_sum u t ratings i.
Proof.
  intros Hwf Hi. unfold scores_of, weighted_sum.
  rewrite rating_tally, rating_nil, (contributions_sum Rmult) by done. lra.
Qed.

Lemma rating_sim_sums_of u t ratings i :
  (∀ v rv, (v, rv) ∈ ratings → dict_wf rv) → i ∉ keys t →
  rating (sim_sums_of u t ratings) i = similarity_sum u t ratings i.
Proof.
  intros Hwf Hi. unfold sim_sums_of, similarity_sum.
  rewrite rating_tally, rating_nil, (contributions_sum (λ s _, s)) by done. lra.
Qed.

Lemma aggregate_closed u t ratings :
  aggregate u t ratings = Ok (scores_of u t ratings, sim_sums_of u t ratings).
Proof. by rewrite aggregate_ok, foldl_accumulate. Qed.

Lemma predict_closed u t ratings :
  predict (scores_of u t ratings) (sim_sums_of u t ratings)
  = Ok (predictions_of u t ratings).
Proof.
  unfold predict. rewrite for_each_predict_item; [done|].
  intros k Hk. by rewrite keys_sim_sums_of, <- keys_scores_of.
Qed.

(** The list the code has built before the sort is [predictions_of]. *)
Lemma computed_predictions_closed u ratings preds :
  computed_predictions u ratings preds
  ↔ preds = match get ratings u with
            | None | Some [] => []
            | Some t => predictions_of u t ratings
            end.
Proof.
  unfold computed_predictions. destruct (get ratings u) as [[|e t]|]; [done| |done].
  set (t' := e :: t). split.
  - intros (scores & sim_sums & Ha & Hp). rewrite aggregate_closed in Ha.
    injection Ha as <- <-. rewrite predict_closed in Hp. by injection Hp.
  - intros ->. exists (scores_of u t' ratings), (sim_sums_of u t' ratings).
    split; [apply aggregate_closed|apply predict_closed].
Qed.

(** Lines 37-57 raise nothing and sort [predictions_of]. *)
Lemma ranking_ok u t ratings :
  ranking u t ratings = Ok (sort_desc (predictions_of u t ratings)).
Proof.
  unfold ranking. rewrite aggregate_closed. cbn [mbind result_bind].
  unfold predict. rewrite for_each_predict_item; [done|].
  intros k Hk. by rewrite keys_sim_sums_of, <- keys_scores_of.
Qed.

Lemma recommend_ok u ratings n :
  recommend u ratings n
  = Ok (match get ratings u with
        | None | Some [] => ([UserNotFound u], [])
        | Some t => ([], py_slice (sort_desc (predictions_of u t ratings)) n)
        end).
Proof.
  unfold recommend. destruct (get ratings u) as [[|e t]|]; [done| |done].
  by rewrite ranking_ok.
Qed.
End recommend_facts.

(** ** The predictions before ranking *)

Section predictions_facts.
Local Open Scope R_scope.
Implicit Types (t rv : rating_vector) (ratings : store).

Lemma predicted_item scores sim_sums k p :
  predicted scores sim_sums k = Some p → p.1 = k.
Proof. unfold predicted. case_decide; [|done]. by intros [= <-]. Qed.

Lemma predicted_items_sublist scores sim_sums ks :
  (omap (predicted scores sim_sums) ks).*1 `sublist_of` ks.
Proof.
  induction ks as [|k ks IH]; [done|]. cbn [omap list_omap].
  fold (omap (predicted scores sim_sums) ks).
  destruct (predicted scores sim_sums k) as [p|] eqn:Hp.
  - rewrite fmap_cons, (predicted_item _ _ _ _ Hp). by apply sublist_skip.
  - by apply sublist_cons.
Qed.

Lemma predictions_of_items u t ratings :
  (predictions_of u t ratings).*1
    `sublist_of` dedup_first (encounter_sequence u t ratings).
Proof.
  unfold predictions_of. rewrite <- keys_scores_of.
  apply predicted_items_sublist.
Qed.

Lemma NoDup_predictions_of u t ratings :
  NoDup (predictions_of u t ratings).*1.
Proof.
  eapply sublist_NoDup; [apply NoDup_dedup_first|apply predictions_of_items].
Qed.

(** The entries of [predictions] are those the specification names. *)
Lemma elem_of_predictions_of u t ratings i s :
  (∀ v rv, (v, rv) ∈ ratings → dict_wf rv) →
  (i, s) ∈ predictions_of u t ratings
  ↔ candidate u t ratings i
    ∧ similarity_sum u t ratings i ≠ 0
    ∧ s = round2 (weighted_sum u t ratings i / similarity_sum u t ratings i).
Proof.
  intros Hwf. unfold predictions_of. rewrite list_elem_of_omap. split.
  - intros (k & Hk & Hp).
    rewrite keys_scores_of, elem_of_dedup_first,
      elem_of_encounter_sequence in Hk.
    pose proof Hk as [Hkt _]. unfold predicted in Hp.
    rewrite rating_scores_of, rating_sim_sums_of in Hp by done.
    case_decide as Hne; [|done]. by simplify_eq.
  - intros (Hc & Hne & ->). exists i. split.
    + by rewrite keys_scores_of, elem_of_dedup_first,
        elem_of_encounter_sequence.
    + destruct Hc as [Hit _]. unfold predicted.
      rewrite rating_scores_of, rating_sim_sums_of by done.
      by rewrite decide_True.
Qed.
(** [predictions] in closed form: the predictions of the specification,
    in the order of first encounter. *)
Lemma predictions_of_spec u t ratings :
  (∀ v rv, (v, rv) ∈ ratings → dict_wf rv) →
  predictions_of u t ratings
  = omap (predicted_spec u t ratings)
         (dedup_first (encounter_sequence u t ratings)).
Proof.
  intros Hwf. unfold predictions_of. rewrite keys_scores_of.
  apply list_omap_ext, Forall_Forall2_diag, Forall_forall. intros i Hi.
  rewrite elem_of_dedup_first, elem_of_encounter_sequence in Hi.
  destruct Hi as [Hit _]. unfold predicted, predicted_spec.
  by rewrite rating_scores_of, rating_sim_sums_of.
Qed.
End predictions_facts.

(** ** The sort *)

Section sort_facts.
Local Open Scope R_scope.
Implicit Types (x y : prediction) (ps : list prediction).

Lemma insert_desc_Permutation x ps : insert_desc x ps ≡ₚ x :: ps.
Proof.
  induction ps as [|y ps IH]; [done|]. cbn [insert_desc].
  case_decide; [|done]. rewrite IH. apply Permutation_swap.
Qed.

Lemma sort_desc_Permutation ps : sort_desc ps ≡ₚ ps.
Proof.
  induction ps as [|x ps IH]; [done|]. unfold sort_desc in *. cbn [foldr].
  by rewrite insert_desc_Permutation, IH.
Qed.

Lemma insert_desc_sorted x ps : sorted_desc ps → sorted_desc (insert_desc x ps).
Proof.
  unfold sorted_desc. induction 1 as [|y ps Hs IH Hy]; cbn [insert_desc].
  - by repeat constructor.
  - case_decide as Hxy.
    + constructor; [done|].
      rewrite insert_desc_Permutation. constructor; [cbv beta; lra|done].
    + constructor; [by constructor|]. constructor; [cbv beta; lra|].
      eapply Forall_impl; [done|]. intros z Hz. cbv beta in *. lra.
Qed.

Lemma sort_desc_sorted ps : sorted_desc (sort_desc ps).
Proof.
  induction ps as [|x ps IH]; [constructor|].
  unfold sort_desc in *. cbn [foldr]. by apply insert_desc_sorted.
Qed.

(** Stability: the entries of any one score keep their order. *)
Lemma insert_desc_stable s x ps :
  filter (λ p, p.2 = s) (insert_desc x ps) = filter (λ p, p.2 = s) (x :: ps).
Proof.
  induction ps as [|y ps IH]; [done|]. cbn [insert_desc].
  case_decide as Hxy; [|done].
  rewrite (filter_cons _ y), IH, !(filter_cons _ x), (filter_cons _ y).
  destruct (decide (x.2 = s)), (decide (y.2 = s)); try done. lra.
Qed.

Lemma sort_desc_stable s ps :
  filter (λ p, p.2 = s) (sort_desc ps) = filter (λ p, p.2 = s) ps.
Proof.
  induction ps as [|x ps IH]; [done|]. unfold sort_desc in *. cbn [foldr].
  by rewrite insert_desc_stable, !filter_cons, IH.
Qed.

Lemma filter_sublist_mono {A : Type} (P : A → Prop) `{!∀ a, Decision (P a)}
    (xs ys : list A) :
  xs `sublist_of` ys → filter P xs `sublist_of` filter P ys.
Proof.
  induction 1 as [|a xs ys Hs IH|a xs ys Hs IH]; [done| |].
  - rewrite !filter_cons. destruct (decide (P a)); [by apply sublist_skip|done].
  - rewrite filter_cons. destruct (decide (P a)); [by apply sublist_cons|done].
Qed.

(** Two entries of equal score that follow each other in the sorted list
    followed each other in the same order before. *)
Lemma sort_desc_keeps_ties x y ps :
  x.2 = y.2 → [x; y] `sublist_of` sort_desc ps → [x; y] `sublist_of` ps.
Proof.
  intros Hxy Hs. apply (filter_sublist_mono (λ p, p.2 = x.2)) in Hs.
  rewrite sort_desc_stable in Hs.
  rewrite !filter_cons_True, filter_nil in Hs by done.
  etrans; [done|]. apply sublist_filter.
Qed.

Lemma lookup_lt_sublist {A : Type} (xs : list A) (p q : nat) (a b : A) :
  (p < q)%nat → xs !! p = Some a → xs !! q = Some b → [a; b] `sublist_of` xs.
Proof.
  intros Hpq Ha Hb. rewrite <- (take_drop_middle xs p a Ha).
  apply sublist_inserts_l, sublist_skip.
  assert (Hin : b ∈ drop (S p) xs).
  { apply (list_elem_of_lookup_2 _ (q - S p)). rewrite lookup_drop.
    by replace (S p + (q - S p))%nat with q by lia. }
  apply list_elem_of_split in Hin as (l1 & l2 & ->).
  apply sublist_inserts_l, sublist_skip, sublist_nil_l.
Qed.
End sort_facts.

(** ** Order of first encounter *)

Section encounter_facts.
Implicit Types (ks : list string).

Lemma sublist_dedup_first ks i j :
  [i; j] `sublist_of` dedup_first ks → first_before ks i j.
Proof.
  induction ks as [|k ks IH]; cbn [dedup_first].
  - by intros ?%sublist_nil_r.
  - intros [Hs|(l' & [= <- <-] & Hs)]%sublist_cons_r.
    + assert (Hi : i ∈ filter (λ y, y ≠ k) (dedup_first ks))
        by (eapply elem_of_sublist; [|done]; left).
      assert (Hj : j ∈ filter (λ y, y ≠ k) (dedup_first ks))
        by (eapply elem_of_sublist; [|done]; right; left).
      apply list_elem_of_filter in Hi as [Hik _].
      apply list_elem_of_filter in Hj as [Hjk _].
      destruct IH as (pre & post & -> & Hip & Hjp & Hij).
      { etrans; [done|]. apply sublist_filter. }
      exists (k :: pre), post. rewrite !not_elem_of_cons. done.
    + assert (Hj : j ∈ filter (λ y, y ≠ i) (dedup_first ks))
        by (eapply elem_of_sublist; [|done]; left).
      apply list_elem_of_filter in Hj as [Hji _].
      exists [], ks. split; [done|]. split; [apply not_elem_of_nil|].
      split; [apply not_elem_of_nil|done].
Qed.
End encounter_facts.

(** ** Rounding *)

Section rounding_facts.
Local Open Scope R_scope.

Lemma Int_part_IZR (k : Z) : Int_part (IZR k) = k.
Proof. symmetry. apply Int_part_spec. lra. Qed.

Lemma round_half_even_IZR (k : Z) : round_half_even (IZR k) = k.
Proof.
  unfold round_half_even. rewrite Int_part_IZR.
  rewrite decide_True; [done|lra].
Qed.

(** A value that already has two decimals is left alone. *)
Lemma round2_hundredths (k : Z) : round2 (IZR k / 100) = IZR k / 100.
Proof.
  unfold round2. replace (IZR k / 100 * 100) with (IZR k) by lra.
  by rewrite round_half_even_IZR.
Qed.

Lemma round_half_even_bounds (x : R) (lo hi : Z) :
  IZR lo <= x <= IZR hi → (lo <= round_half_even x <= hi)%Z.
Proof.
  intros [Hlo Hhi]. unfold round_half_even.
  destruct (base_Int_part x) as [Hn1 Hn2].
  assert (Hlon : (lo <= Int_part x)%Z).
  { assert (lo < Int_part x + 1)%Z; [|lia].
    apply lt_IZR. rewrite plus_IZR. lra. }
  assert (Hnhi : (Int_part x <= hi)%Z) by (apply le_IZR; lra).
  assert (Hup : 0 < x - IZR (Int_part x) → (Int_part x + 1 <= hi)%Z).
  { intros Hf. assert (Int_part x < hi)%Z; [|lia]. apply lt_IZR. lra. }
  repeat case_decide; try destruct (Z.even _); try lia.
  all: split; [lia|apply Hup; lra].
Qed.

(** Rounding to two decimals keeps a score inside [0, 5]. *)
Lemma round2_bounds (x : R) : 0 <= x <= 5 → 0 <= round2 x <= 5.
Proof.
  intros Hx. unfold round2.
  destruct (round_half_even_bounds (x * 100) 0 500) as [H0 H500]; [lra|].
  apply IZR_le in H0, H500. lra.
Qed.
End rounding_facts.

(** ** Validation *)

Section load_facts.
Local Open Scope R_scope.
Implicit Types (rv items : rating_vector) (data : store).

Lemma vector_in_range_nil : vector_in_range [].
Proof. by intros i s ?%elem_of_nil. Qed.

Lemma vector_in_range_cons i s rv :
  vector_in_range ((i, s) :: rv) ↔ 0 <= s <= 5 ∧ vector_in_range rv.
Proof.
  unfold vector_in_range. split.
  - intros H. split; [apply (H i); left|]. intros j r Hj. apply (H j). by right.
  - intros [Hs H] j r [[= -> ->]|Hj]%elem_of_cons; [done|by apply (H j)].
Qed.

Lemma store_in_range_nil : store_in_range [].
Proof. by intros u rv ?%elem_of_nil. Qed.

Lemma store_in_range_cons u rv data :
  store_in_range ((u, rv) :: data) ↔ vector_in_range rv ∧ store_in_range data.
Proof.
  unfold store_in_range. split.
  - intros H. split; [apply (H u); left|]. intros v b Hv. apply (H v). by right.
  - intros [Hs H] v b [[= -> ->]|Hv]%elem_of_cons; [done|by apply (H v)].
Qed.

(** The inner loop either accepts a rating vector that is in range or
    raises at its first score out of range. *)
Lemma check_scores_cases user items :
  (vector_in_range items ∧ for_each (check_score user) items () = Ok ())
  ∨ ∃ ipre item score ipost,
      items = ipre ++ (item, score) :: ipost
      ∧ vector_in_range ipre ∧ ¬ (0 <= score <= 5)
      ∧ for_each (check_score user) items ()
        = Raise (InvalidRating user item score).
Proof.
  induction items as [|[i s] items IH].
  - left. split; [apply vector_in_range_nil|done].
  - cbn [for_each check_score]. destruct (decide (0 <= s ∧ s <= 5)) as [Hs|Hs].
    + cbn [mbind result_bind].
      destruct IH as [[Hr Hok]|(ipre & item & score & ipost & -> & Hr & Hv & Hf)].
      * left. split; [by apply vector_in_range_cons|done].
      * right. exists ((i, s) :: ipre), item, score, ipost.
        split; [done|]. split; [by apply vector_in_range_cons|done].
    + right. exists [], i, s, items.
      split; [done|]. split; [apply vector_in_range_nil|done].
Qed.

Lemma validate_cases data :
  (store_in_range data ∧ validate data = Ok ())
  ∨ ∃ user item score,
      first_violation data user item score
      ∧ validate data = Raise (InvalidRating user item score).
Proof.
  unfold validate. induction data as [|[u rv] data IH].
  - left. split; [apply store_in_range_nil|done].
  - cbn [for_each check_user].
    destruct (check_scores_cases u rv)
      as [[Hr ->]|(ipre & item & score & ipost & Hrv & Hr & Hv & ->)].
    + cbn [mbind result_bind].
      destruct IH as [[Hd Hok]|(user & item & score & Hfv & Hf)].
      * left. split; [by apply store_in_range_cons|done].
      * right. exists user, item, score. split; [|done].
        destruct Hfv as (pre & items & post & ipre & ipost
                         & -> & -> & Hpre & Hipre & Hs).
        exists ((u, rv) :: pre), (ipre ++ (item, score) :: ipost), post,
          ipre, ipost.
        split; [done|]. split; [done|].
        split; [by apply store_in_range_cons|done].
    + right. exists u, item, score. split; [|done].
      exists [], rv, data, ipre, ipost.
      split; [done|]. split; [done|]. split; [apply store_in_range_nil|done].
Qed.
End load_facts.

(** ** Scores in range give non-negative similarities *)

Section range_facts.
Local Open Scope R_scope.
Implicit Types (a b t rv : rating_vector) (ratings : store).

Lemma rating_in_range a i : vector_in_range a → 0 <= rating a i <= 5.
Proof.
  intros Ha. unfold rating. destruct (get a i) as [v|] eqn:Hv; simpl; [|lra].
  apply (Ha i). by apply get_Some_elem_of.
Qed.

Lemma cosine_over_nonneg a b l :
  vector_in_range a → vector_in_range b → 0 <= cosine_over a b l.
Proof.
  intros Ha Hb. unfold cosine_over. repeat case_decide; try lra.
  assert (Hd : 0 <= dot a b l).
  { unfold dot. apply Rsum_nonneg, Forall_fmap, Forall_forall. intros i _.
    pose proof (rating_in_range a i Ha). pose proof (rating_in_range b i Hb).
    simpl. nra. }
  pose proof (sqrt_pos (sq_norm a l)). pose proof (sqrt_pos (sq_norm b l)).
  apply Rmult_le_pos; [done|]. apply Rlt_le, Rinv_0_lt_compat.
  apply Rmult_lt_0_compat; destruct (decide (sqrt (sq_norm a l) = 0)),
    (decide (sqrt (sq_norm b l) = 0)); tauto || lra.
Qed.

Lemma similarity_nonneg a b :
  vector_in_range a → vector_in_range b → 0 <= similarity a b.
Proof. apply cosine_over_nonneg. Qed.

(** The weighted sum lies between 0 and 5 times the sum of the weights. *)
Lemma weighted_sum_bounds u t ratings i :
  vector_in_range t → store_in_range ratings →
  0 <= similarity_sum u t ratings i
  ∧ 0 <= weighted_sum u t ratings i <= 5 * similarity_sum u t ratings i.
Proof.
  intros Ht Hr. unfold similarity_sum, weighted_sum.
  assert (Hin : ∀ p, p ∈ other_raters u ratings i → vector_in_range p.2).
  { intros [v rv] [_ Hp]%list_elem_of_filter. by apply (Hr v). }
  induction (other_raters u ratings i) as [|p ps IH].
  - rewrite !fmap_nil, !Rsum_nil. lra.
  - rewrite !fmap_cons, !Rsum_cons.
    destruct IH as (IH1 & IH2 & IH3); [intros q Hq; apply Hin; by right|].
    assert (Hp : vector_in_range p.2) by (apply Hin; left).
    pose proof (similarity_nonneg t p.2 Ht Hp).
    pose proof (rating_in_range p.2 i Hp). nra.
Qed.
End range_facts.

(** ** Slices and the result of [recommend] *)

Section slice_facts.
Local Open Scope R_scope.
Implicit Types (t : rating_vector) (ratings : store) (ps : list prediction).

Lemma StronglySorted_sublist {A : Type} (Rel : relation A) (xs ys : list A) :
  xs `sublist_of` ys → StronglySorted Rel ys → StronglySorted Rel xs.
Proof.
  induction 1 as [|a xs ys Hs IH|a xs ys Hs IH]; [done| |].
  - intros [Hys Ha]%StronglySorted_inv. constructor; [by apply IH|].
    apply Forall_forall. intros b Hb. rewrite Forall_forall in Ha.
    apply Ha. by eapply elem_of_sublist.
  - intros [Hys _]%StronglySorted_inv. by apply IH.
Qed.

Lemma py_slice_sublist {A : Type} (xs : list A) (n : Z) :
  py_slice xs n `sublist_of` xs.
Proof. unfold py_slice. case_decide; apply sublist_take. Qed.

Lemma py_slice_nonneg {A : Type} (xs : list A) (n : Z) :
  (0 <= n)%Z → py_slice xs n = take (Z.to_nat n) xs.
Proof. intros Hn. unfold py_slice. by rewrite decide_True. Qed.

Lemma py_slice_neg {A : Type} (xs : list A) (k : Z) :
  (0 < k)%Z → py_slice xs (- k) = take (length xs - Z.to_nat k) xs.
Proof.
  intros Hk. unfold py_slice. rewrite decide_False by lia. f_equal. lia.
Qed.

Lemma ranked_sorted u ratings : sorted_desc (ranked u ratings).
Proof.
  unfold ranked. destruct (get ratings u) as [[|e t]|]; try constructor.
  rewrite ranking_ok. apply sort_desc_sorted.
Qed.

(** [recommend] raises nothing and returns a slice of [ranked]. *)
Lemma recommend_ranked u ratings n :
  recommend u ratings n
  = Ok (match get ratings u with
        | None | Some [] => [UserNotFound u]
        | Some _ => []
        end, py_slice (ranked u ratings) n).
Proof.
  rewrite recommend_ok. unfold ranked.
  destruct (get ratings u) as [[|e t]|].
  - f_equal. f_equal. unfold py_slice. case_decide; by rewrite take_nil.
  - by rewrite ranking_ok.
  - f_equal. f_equal. unfold py_slice. case_decide; by rewrite take_nil.
Qed.

(** [recommend] reports an unknown user when the lookup of line 33 gives
    nothing or gives an empty rating vector, and in no other case. *)
Lemma recommend_user_not_found_iff u ratings n out res :
  recommend u ratings n = Ok (out, res) →
  UserNotFound u ∈ out ↔ get ratings u = None ∨ get ratings u = Some [].
Proof.
  rewrite recommend_ranked. intros [= <- _].
  destruct (get ratings u) as [[|e t]|].
  - split; [by right|left].
  - split; [by intros ?%elem_of_nil|by intros [?|?]].
  - split; [by left|left].
Qed.

(** [recommend] returns a slice of the sorted list of the predictions the
    code has built. *)
Lemma recommend_sorted_slice u ratings n :
  ∃ out preds,
    computed_predictions u ratings preds
    ∧ recommend u ratings n = Ok (out, py_slice (sort_desc preds) n)
    ∧ ∀ m, recommend u ratings m = Ok (out, py_slice (sort_desc preds) m).
Proof.
  eexists _, _. split; [by apply computed_predictions_closed|].
  assert (H : ∀ m, recommend u ratings m
    = Ok (match get ratings u with
          | None | Some [] => [UserNotFound u]
          | Some _ => []
          end,
          py_slice (sort_desc match get ratings u with
                              | None | Some [] => []
                              | Some t => predictions_of u t ratings
                              end) m)).
  { intros m. rewrite recommend_ok.
    destruct (get ratings u) as [[|e t]|]; [|done|];
      do 2 f_equal; unfold py_slice, sort_desc; cbn [foldr];
      case_decide; by rewrite take_nil. }
  split; [apply H|apply H].
Qed.


End slice_facts.

(** ** A stable descending sort has one outcome *)

(** [list.sort] is a merge sort; [sort_desc] sorts by insertion.  Both are
    stable, and there is only one list in descending order whose entries of
    each score stand as they stood before, so the two agree. *)

Section stable_unique.
Local Open Scope R_scope.
Implicit Types (x y : prediction) (ps qs : list prediction).

Lemma sorted_desc_head x ps y : sorted_desc (x :: ps) → y ∈ x :: ps → y.2 <= x.2.
Proof.
  intros [_ Hx]%StronglySorted_inv [->|Hy]%elem_of_cons; [lra|].
  rewrite Forall_forall in Hx. by apply Hx.
Qed.

Lemma elem_of_same_score_filter x ps qs :
  (∀ s, filter (λ p, p.2 = s) ps = filter (λ p, p.2 = s) qs) → x ∈ ps → x ∈ qs.
Proof.
  intros Hf Hx. assert (Hin : x ∈ filter (λ p, p.2 = x.2) ps)
    by by apply list_elem_of_filter.
  rewrite Hf in Hin. by apply list_elem_of_filter in Hin as [_ ?].
Qed.

Lemma sorted_desc_unique ps qs :
  sorted_desc ps → sorted_desc qs →
  (∀ s, filter (λ p, p.2 = s) ps = filter (λ p, p.2 = s) qs) → ps = qs.
Proof.
  revert qs. induction ps as [|x ps IH]; intros [|y qs] Hps Hqs Hf; [done| | |].
  - specialize (Hf y.2). by rewrite filter_cons_True in Hf.
  - specialize (Hf x.2). by rewrite filter_cons_True in Hf.
  - assert (Hxy : x.2 = y.2).
    { assert (x.2 <= y.2).
      { apply (sorted_desc_head y qs); [done|].
        apply (elem_of_same_score_filter x (x :: ps)); [done|left]. }
      assert (y.2 <= x.2); [|lra].
      apply (sorted_desc_head x ps); [done|].
      apply (elem_of_same_score_filter y (y :: qs)); [done|left]. }
    pose proof (Hf x.2) as Hfx.
    rewrite !filter_cons_True in Hfx by done. injection Hfx as -> Hfx.
    f_equal. apply IH.
    + by apply StronglySorted_inv in Hps as [? _].
    + by apply StronglySorted_inv in Hqs as [? _].
    + intros s. destruct (decide (s = y.2)) as [->|Hs]; [done|].
      specialize (Hf s). by rewrite !filter_cons_False in Hf.
Qed.

Lemma stable_sort_unique ps qs :
  sorted_desc qs →
  (∀ s, filter (λ p, p.2 = s) qs = filter (λ p, p.2 = s) ps) →
  qs = sort_desc ps.
Proof.
  intros Hqs Hf. apply sorted_desc_unique; [done|apply sort_desc_sorted|].
  intros s. by rewrite sort_desc_stable.
Qed.
End stable_unique.

(** * The claims of the specification *)

Section claims.
Local Open Scope R_scope.
Implicit Types (a b t rv : rating_vector) (ratings data : store).
Implicit Types (u i j : string) (n k : Z).


(** C2.  The code at the failing input: the user ["u1"] is in
    [empty_target_store], with an empty rating vector, and [recommend]
    still takes the branch of line 34 and prints that the user does not
    exist. *)
Theorem recommend_empty_target_reported_unknown :
  get empty_target_store "u1" = Some []
  ∧ recommend "u1" empty_target_store 3 = Ok ([UserNotFound "u1"], []).
Proof. split; reflexivity. Qed.

(** C3.  [load_ratings] checks every score against [0 <= score <= 5]:
    either all scores are in range and the data is returned as it is, or
    the first score out of range is reported, with its user and item, and
    the empty store is returned. *)
Theorem load_ratings_validation data :
  (store_in_range data ∧ load_ratings (Ok data) = ([], data))
  ∨ ∃ user item score,
      first_violation data user item score
      ∧ load_ratings (Ok data)
        = ([ReadFailed (InvalidRating user item score)], []).
Proof.
  unfold load_ratings. cbn [mbind result_bind].
  destruct (validate_cases data) as [[Hr ->]|(user & item & score & Hfv & ->)].
  - by left.
  - right. by exists user, item, score.
Qed.


(** C5.  For [0 <= n], [recommend] returns the first [n] entries of the
    sorted prediction list: [sorted] holds exactly the predictions [preds]
    the code has built, in descending order of the score, predictions of
    equal score standing as they stood in [preds]; the result is in
    descending order, has at most [n] entries, and is empty for
    [n = 0]. *)
Theorem recommend_top_n u ratings n :
  (0 <= n)%Z →
  ∃ out preds sorted,
    computed_predictions u ratings preds
    ∧ sorted ≡ₚ preds
    ∧ sorted_desc sorted
    ∧ (∀ s, filter (λ p, p.2 = s) sorted = filter (λ p, p.2 = s) preds)
    ∧ recommend u ratings n = Ok (out, take (Z.to_nat n) sorted)
    ∧ sorted_desc (take (Z.to_nat n) sorted)
    ∧ (length (take (Z.to_nat n) sorted) ≤ Z.to_nat n)%nat
    ∧ recommend u ratings 0 = Ok (out, []).
Proof.
  intros Hn. destruct (recommend_sorted_slice u ratings n)
    as (out & preds & Hc & Hrec & Hall).
  exists out, preds, (sort_desc preds).
  split; [done|]. split; [apply sort_desc_Permutation|].
  split; [apply sort_desc_sorted|]. split; [intros s; apply sort_desc_stable|].
  split; [by rewrite Hrec, py_slice_nonneg|].
  split; [eapply StronglySorted_sublist;
          [apply sublist_take|apply sort_desc_sorted]|].
  split; [rewrite length_take; lia|].
  by rewrite Hall, py_slice_nonneg.
Qed.

(** C6.  The similarity lies between -1 and 1, and it is 0 when the two
    rating vectors share no item. *)
Theorem cosine_similarity_bounds a b :
  ∃ x, cosine_similarity a b = Ok x
    ∧ -1 <= x <= 1
    ∧ ((∀ i, i ∈ keys a → i ∉ keys b) → x = 0).
Proof.
  exists (similarity a b). split; [apply cosine_similarity_ok|].
  split; [apply cosine_over_bounds|].
  intros Hdisj. rewrite (similarity_enumeration a b []).
  - done.
  - constructor.
  - intros i. split; [by intros ?%elem_of_nil|].
    intros [Ha Hb]. by destruct (Hdisj i Ha).
Qed.


(** C8.  In a well-formed store whose scores all lie in [0, 5], the
    similarity of any two users is non-negative and every score that
    [recommend] returns lies in [0, 5]. *)
Theorem in_range_scores ratings :
  store_wf ratings → store_in_range ratings →
  (∀ u a v b, (u, a) ∈ ratings → (v, b) ∈ ratings →
     ∃ x, cosine_similarity a b = Ok x ∧ 0 <= x)
  ∧ (∀ u n out res i s,
       recommend u ratings n = Ok (out, res) → (i, s) ∈ res → 0 <= s <= 5).
Proof.
  intros [_ Hwf] Hr. split.
  - intros u a v b Ha Hb. exists (similarity a b).
    split; [apply cosine_similarity_ok|].
    apply similarity_nonneg; [by apply (Hr u)|by apply (Hr v)].
  - intros u n out res i s. rewrite recommend_ok.
    destruct (get ratings u) as [t|] eqn:Hget;
      [|intros [= <- <-] Hin; by apply elem_of_nil in Hin].
    assert (Ht : vector_in_range t).
    { apply (Hr u). by apply get_Some_elem_of. }
    destruct t as [|e t]; [intros [= <- <-] Hin; by apply elem_of_nil in Hin|].
    set (t' := e :: t) in *. intros [= <- <-] Hin.
    assert (Hin' : (i, s) ∈ predictions_of u t' ratings).
    { rewrite <- (sort_desc_Permutation (predictions_of _ _ _)).
      eapply elem_of_sublist; [done|apply py_slice_sublist]. }
    apply elem_of_predictions_of in Hin' as (_ & Hne & ->); [|done].
    destruct (weighted_sum_bounds u t' ratings i Ht Hr) as (Hs & Hw0 & Hw5).
    apply round2_bounds, div_bounds; lra.
Qed.

(** C9.  Two returned predictions of equal score stand in the order in
    which their items were first met by the loops over the store: users in
    store order, items in the order of the user's rating vector. *)
Theorem recommend_ties_in_encounter_order u t ratings n out res p q i j s :
  get ratings u = Some t →
  recommend u ratings n = Ok (out, res) →
  (p < q)%nat → res !! p = Some (i, s) → res !! q = Some (j, s) →
  first_before (encounter_sequence u t ratings) i j.
Proof.
  intros Hget. rewrite recommend_ok, Hget.
  destruct t as [|e t]; [intros [= <- <-] _ Hp; by rewrite lookup_nil in Hp|].
  set (t' := e :: t) in *. intros [= <- <-] Hpq Hp Hq.
  apply sublist_dedup_first. etrans; [|apply predictions_of_items].
  change [i; j] with ([(i, s); (j, s)].*1). apply fmap_sublist.
  apply sort_desc_keeps_ties; [done|].
  etrans; [|apply py_slice_sublist]. by eapply lookup_lt_sublist.
Qed.

(** C10.  For a negative [top_n = -k], [recommend] raises nothing and
    returns the sorted prediction list without its last [k] entries:
    [sorted] holds exactly the [N] predictions [preds] the code has built,
    in descending order, the result is its first [N - k] entries, of length
    [max 0 (N - k)], and it is not empty when there are more than [k]
    predictions. *)
Theorem recommend_negative_top_n u ratings k :
  (0 < k)%Z →
  ∃ out preds sorted res,
    computed_predictions u ratings preds
    ∧ sorted ≡ₚ preds
    ∧ sorted_desc sorted
    ∧ (∀ s, filter (λ p, p.2 = s) sorted = filter (λ p, p.2 = s) preds)
    ∧ recommend u ratings (- k) = Ok (out, res)
    ∧ res = take (length preds - Z.to_nat k) sorted
    ∧ Z.of_nat (length res) = Z.max 0 (Z.of_nat (length preds) - k)
    ∧ ((k < Z.of_nat (length preds))%Z → res ≠ []).
Proof.
  intros Hk. destruct (recommend_sorted_slice u ratings (- k))
    as (out & preds & Hc & Hrec & _).
  assert (Hlen : length (sort_desc preds) = length preds)
    by by rewrite sort_desc_Permutation.
  exists out, preds, (sort_desc preds),
    (take (length preds - Z.to_nat k) (sort_desc preds)).
  split; [done|]. split; [apply sort_desc_Permutation|].
  split; [apply sort_desc_sorted|]. split; [intros s; apply sort_desc_stable|].
  split; [by rewrite Hrec, py_slice_neg, Hlen|]. split; [done|].
  split.
  - rewrite length_take, Hlen. lia.
  - intros Hlt Hnil. apply (f_equal length) in Hnil.
    rewrite length_take, Hlen in Hnil. simpl in Hnil. lia.
Qed.
End claims.

(** * The code on example stores *)

Section examples.
Local Open Scope R_scope.
Local Open Scope string_scope.

Lemma sqrt_of_square (x y : R) : 0 <= y → x = y * y → sqrt x = y.
Proof. intros Hy ->. by apply sqrt_square. Qed.

Lemma predicted_spec_eval u t ratings i (k : Z) :
  similarity_sum u t ratings i ≠ 0 →
  weighted_sum u t ratings i / similarity_sum u t ratings i = IZR k / 100 →
  predicted_spec u t ratings i = Some (i, IZR k / 100).
Proof.
  intros Hne Hq. unfold predicted_spec.
  by rewrite decide_True, Hq, round2_hundredths.
Qed.

Ltac eval_sqrt y :=
  match goal with
  | |- context [sqrt ?x] => rewrite (sqrt_of_square x y) by lra
  end.

Ltac solve_NoDup := apply (bool_decide_unpack _); by vm_compute.

Ltac solve_store_wf :=
  split; [solve_NoDup|];
  let Hin := fresh in
  intros ? ? Hin;
  repeat (apply elem_of_cons in Hin as [[= -> ->]|Hin]; [solve_NoDup|]);
  by apply elem_of_nil in Hin.

Ltac solve_vector_in_range :=
  let Hin := fresh in
  intros ? ? Hin;
  repeat (apply elem_of_cons in Hin as [[= -> ->]|Hin]; [lra|]);
  by apply elem_of_nil in Hin.

Ltac solve_store_in_range :=
  let Hin := fresh in
  intros ? ? Hin;
  repeat (apply elem_of_cons in Hin as [[= -> ->]|Hin];
          [solve_vector_in_range|]);
  by apply elem_of_nil in Hin.

Ltac solve_enumeration :=
  let i := fresh in
  intros i; rewrite <- list_elem_of_intersection; reflexivity.

Ltac eval_sums :=
  rewrite ?fmap_cons, ?fmap_nil, ?Rsum_cons, ?Rsum_nil; cbn [fst snd].

(** *** Scenario A *)

Lemma scenario_a_wf : store_wf scenario_a.
Proof. solve_store_wf. Qed.

Lemma scenario_a_in_range : store_in_range scenario_a.
Proof. solve_store_in_range. Qed.

Lemma scenario_a_sim_u2 :
  similarity [("a", 5); ("b", 3)] [("a", 4); ("c", 5)] = 1.
Proof.
  rewrite (similarity_enumeration _ _ ["a"]); [|solve_NoDup|solve_enumeration].
  unfold cosine_over, dot, sq_norm, rating. simpl. eval_sums.
  eval_sqrt 5. eval_sqrt 4. rewrite decide_False by lra. lra.
Qed.

Lemma scenario_a_sim_u3 :
  similarity [("a", 5); ("b", 3)] [("b", 2); ("c", 4)] = 1.
Proof.
  rewrite (similarity_enumeration _ _ ["b"]); [|solve_NoDup|solve_enumeration].
  unfold cosine_over, dot, sq_norm, rating. simpl. eval_sums.
  eval_sqrt 3. eval_sqrt 2. rewrite decide_False by lra. lra.
Qed.

Lemma scenario_a_sums :
  similarity_sum "u1" [("a", 5); ("b", 3)] scenario_a "c" = 2
  ∧ weighted_sum "u1" [("a", 5); ("b", 3)] scenario_a "c" = 9.
Proof.
  unfold similarity_sum, weighted_sum.
  assert (other_raters "u1" scenario_a "c"
          = [("u2", [("a", 4); ("c", 5)]); ("u3", [("b", 2); ("c", 4)])])
    as -> by reflexivity.
  eval_sums. rewrite scenario_a_sim_u2, scenario_a_sim_u3.
  unfold rating. simpl. lra.
Qed.

Lemma scenario_a_predictions :
  predictions_of "u1" [("a", 5); ("b", 3)] scenario_a = [("c", 9 / 2)].
Proof.
  rewrite predictions_of_spec by apply scenario_a_wf.
  assert (dedup_first (encounter_sequence "u1" [("a", 5); ("b", 3)] scenario_a)
          = ["c"]) as -> by reflexivity.
  cbn [omap list_omap]. destruct scenario_a_sums as [Hs Hw].
  rewrite (predicted_spec_eval _ _ _ "c" 450) by (rewrite ?Hs, ?Hw; lra).
  by replace (450 / 100) with (9 / 2) by lra.
Qed.

(** Scenario A: the only candidate is ["c"], predicted (5 + 4) / 2. *)
Example recommend_scenario_a :
  recommend "u1" scenario_a 2 = Ok ([], [("c", 9 / 2)]).
Proof.
  rewrite recommend_ok. simpl get. cbv iota.
  rewrite predictions_of_spec by apply scenario_a_wf.
  assert (dedup_first (encounter_sequence "u1" [("a", 5); ("b", 3)] scenario_a)
          = ["c"]) as -> by reflexivity.
  cbn [omap list_omap]. destruct scenario_a_sums as [Hs Hw].
  rewrite (predicted_spec_eval _ _ _ "c" 450) by (rewrite ?Hs, ?Hw; lra).
  unfold sort_desc, py_slice. simpl.
  by replace (450 / 100) with (9 / 2) by lra.
Qed.

(** *** A tie *)

Lemma tie_store_wf : store_wf tie_store.
Proof. solve_store_wf. Qed.

Lemma tie_store_sim :
  similarity [("a", 1)] [("a", 1); ("c", 1); ("b", 1)] = 1.
Proof.
  rewrite (similarity_enumeration _ _ ["a"]); [|solve_NoDup|solve_enumeration].
  unfold cosine_over, dot, sq_norm, rating. simpl. eval_sums.
  repeat eval_sqrt 1. rewrite decide_False by lra. lra.
Qed.

Lemma tie_store_sums i :
  i = "c" ∨ i = "b" →
  similarity_sum "u1" [("a", 1)] tie_store i = 1
  ∧ weighted_sum "u1" [("a", 1)] tie_store i = 1.
Proof.
  unfold similarity_sum, weighted_sum. intros [->| ->].
  - assert (other_raters "u1" tie_store "c"
            = [("u2", [("a", 1); ("c", 1); ("b", 1)])]) as -> by reflexivity.
    eval_sums. rewrite tie_store_sim. unfold rating. simpl. lra.
  - assert (other_raters "u1" tie_store "b"
            = [("u2", [("a", 1); ("c", 1); ("b", 1)])]) as -> by reflexivity.
    eval_sums. rewrite tie_store_sim. unfold rating. simpl. lra.
Qed.

Lemma tie_store_predictions :
  predictions_of "u1" [("a", 1)] tie_store = [("c", 1); ("b", 1)].
Proof.
  rewrite predictions_of_spec by apply tie_store_wf.
  assert (dedup_first (encounter_sequence "u1" [("a", 1)] tie_store)
          = ["c"; "b"]) as -> by reflexivity.
  cbn [omap list_omap].
  destruct (tie_store_sums "c") as [Hs Hw]; [by left|].
  destruct (tie_store_sums "b") as [Hs' Hw']; [by right|].
  rewrite (predicted_spec_eval _ _ _ "c" 100) by (rewrite ?Hs, ?Hw; lra).
  rewrite (predicted_spec_eval _ _ _ "b" 100) by (rewrite ?Hs', ?Hw'; lra).
  by replace (100 / 100) with 1 by lra.
Qed.

Lemma tie_store_ranked :
  sort_desc (predictions_of "u1" [("a", 1)] tie_store) = [("c", 1); ("b", 1)].
Proof.
  rewrite predictions_of_spec by apply tie_store_wf.
  assert (dedup_first (encounter_sequence "u1" [("a", 1)] tie_store)
          = ["c"; "b"]) as -> by reflexivity.
  cbn [omap list_omap].
  destruct (tie_store_sums "c") as [Hs Hw]; [by left|].
  destruct (tie_store_sums "b") as [Hs' Hw']; [by right|].
  rewrite (predicted_spec_eval _ _ _ "c" 100) by (rewrite ?Hs, ?Hw; lra).
  rewrite (predicted_spec_eval _ _ _ "b" 100) by (rewrite ?Hs', ?Hw'; lra).
  unfold sort_desc. cbn [foldr insert_desc snd].
  rewrite decide_False by lra. by replace (100 / 100) with 1 by lra.
Qed.

(** Equal scores: ["c"] stays before ["b"], the order of the user's rating
    vector and not the order of the item names. *)
Example recommend_tie_store :
  recommend "u1" tie_store 3 = Ok ([], [("c", 1); ("b", 1)]).
Proof. rewrite recommend_ok. simpl get. cbv iota. by rewrite tie_store_ranked. Qed.

(** A negative [top_n] cuts entries off the end. *)
Example recommend_tie_store_negative :
  recommend "u1" tie_store (-1) = Ok ([], [("c", 1)]).
Proof. rewrite recommend_ok. simpl get. cbv iota. by rewrite tie_store_ranked. Qed.

(** *** Validation *)

Example load_ratings_invalid_data :
  load_ratings (Ok invalid_data)
  = ([ReadFailed (InvalidRating "u1" "i1" (11 / 2))], []).
Proof.
  unfold load_ratings, invalid_data, validate.
  cbn [mbind result_bind for_each check_user check_score].
  rewrite decide_False by lra. done.
Qed.

Example load_ratings_scenario_a : load_ratings (Ok scenario_a) = ([], scenario_a).
Proof.
  unfold load_ratings. cbn [mbind result_bind].
  destruct (validate_cases scenario_a)
    as [[_ ->]|(u & i & s & Hfv & _)]; [done|].
  destruct Hfv as (pre & items & post & ipre & ipost & Hd & Hi & _ & _ & Hs).
  destruct Hs. apply (scenario_a_in_range u items) with i.
  - rewrite Hd. apply elem_of_app. right. left.
  - rewrite Hi. apply elem_of_app. right. left.
Qed.
(** *** The theorems at the example stores *)




Lemma recommend_top_n_witness :
  ∃ out sorted,
    recommend "u1" scenario_a 2 = Ok (out, take 2 sorted)
    ∧ sorted ≡ₚ [("c", 9 / 2)]
    ∧ recommend "u1" scenario_a 0 = Ok (out, []).
Proof.
  destruct (recommend_top_n "u1" scenario_a 2)
    as (out & preds & sorted & Hc & Hp & _ & _ & Hrec & _ & _ & Hzero); [lia|].
  exists out, sorted. split; [done|]. split; [|done].
  destruct Hc as (scores & sim_sums & Ha & Hpred).
  rewrite aggregate_closed in Ha. injection Ha as <- <-.
  rewrite predict_closed, scenario_a_predictions in Hpred.
  injection Hpred as <-. done.
Defined.

Lemma cosine_similarity_bounds_witness :
  ∃ x, cosine_similarity [("z", 1)] [("a", 2)] = Ok x ∧ -1 <= x <= 1 ∧ x = 0.
Proof.
  destruct (cosine_similarity_bounds [("z", 1)] [("a", 2)])
    as (x & Hx & Hb & H0).
  exists x. split; [done|]. split; [done|]. apply H0.
  intros i Hi Ha. change (i ∈ ["z"]) in Hi. change (i ∈ ["a"]) in Ha.
  apply list_elem_of_singleton in Hi, Ha. by subst.
Defined.

Lemma in_range_scores_witness :
  store_wf scenario_a ∧ store_in_range scenario_a ∧ 0 <= 9 / 2 <= 5.
Proof.
  split; [apply scenario_a_wf|]. split; [apply scenario_a_in_range|].
  apply (proj2 (in_range_scores scenario_a scenario_a_wf scenario_a_in_range)
           "u1" 2%Z [] [("c", 9 / 2)] "c").
  - apply recommend_scenario_a.
  - left.
Defined.

Lemma recommend_ties_in_encounter_order_witness :
  first_before (encounter_sequence "u1" [("a", 1)] tie_store) "c" "b".
Proof.
  apply (recommend_ties_in_encounter_order "u1" [("a", 1)] tie_store 3 []
           [("c", 1); ("b", 1)] 0 1 "c" "b" 1).
  - reflexivity.
  - apply recommend_tie_store.
  - lia.
  - reflexivity.
  - reflexivity.
Defined.

Lemma recommend_negative_top_n_witness :
  ∃ out sorted res,
    recommend "u1" tie_store (-1) = Ok (out, res)
    ∧ sorted ≡ₚ [("c", 1); ("b", 1)]
    ∧ res = take 1 sorted
    ∧ length res = 1%nat
    ∧ res ≠ [].
Proof.
  destruct (recommend_negative_top_n "u1" tie_store 1)
    as (out & preds & sorted & res & Hc & Hp & _ & _ & Hrec & Hres & Hlen & Hne);
    [lia|].
  destruct Hc as (scores & sim_sums & Ha & Hpred).
  rewrite aggregate_closed in Ha. injection Ha as <- <-.
  rewrite predict_closed, tie_store_predictions in Hpred.
  injection Hpred as <-.
  exists out, sorted, res. split; [done|]. split; [done|].
  split; [done|]. simpl in Hlen, Hne. split; [lia|]. apply Hne. lia.
Defined.
End examples.

(** * Further properties of the code *)

Section more_facts.
Local Open Scope R_scope.
Implicit Types (a b t rv : rating_vector) (ratings data : store).
Implicit Types (u i j : string) (n m : Z) (ps : list prediction).

Lemma ranked_closed u ratings :
  ranked u ratings
  = match get ratings u with
    | None | Some [] => []
    | Some t => sort_desc (predictions_of u t ratings)
    end.
Proof.
  unfold ranked. destruct (get ratings u) as [[|e t]|]; [done| |done].
  by rewrite ranking_ok.
Qed.

Lemma ranked_sublist_items u t ratings :
  get ratings u = Some t →
  ∀ i s, (i, s) ∈ ranked u ratings → (i, s) ∈ predictions_of u t ratings.
Proof.
  intros Hget i s. rewrite ranked_closed, Hget.
  destruct t as [|e t]; [by intros ?%elem_of_nil|].
  by rewrite sort_desc_Permutation.
Qed.

Lemma NoDup_ranked_items u ratings : NoDup (ranked u ratings).*1.
Proof.
  rewrite ranked_closed. destruct (get ratings u) as [[|e t]|]; try constructor.
  rewrite sort_desc_Permutation. apply NoDup_predictions_of.
Qed.

Lemma py_slice_nil {A : Type} n : py_slice (@nil A) n = [].
Proof. unfold py_slice. case_decide; apply take_nil. Qed.

Lemma similarity_disjoint a b :
  (∀ i, i ∈ keys b → i ∉ keys a) → similarity a b = 0.
Proof.
  intros Hd. rewrite (similarity_enumeration a b []); [done|constructor|].
  intros i. split; [by intros ?%elem_of_nil|].
  intros [Ha Hb]. by destruct (Hd i Hb).
Qed.

(** The scores [recommend] returns on a store in range. *)
Lemma recommend_scores_in_range u ratings n out res i s :
  store_wf ratings → store_in_range ratings →
  recommend u ratings n = Ok (out, res) → (i, s) ∈ res → 0 <= s <= 5.
Proof.
  intros [_ Hwf] Hr. rewrite recommend_ranked. intros [= <- <-] Hin.
  assert (Hin' : (i, s) ∈ ranked u ratings)
    by (eapply elem_of_sublist; [done|apply py_slice_sublist]).
  destruct (get ratings u) as [t|] eqn:Hget.
  2:{ rewrite ranked_closed, Hget in Hin'. by apply elem_of_nil in Hin'. }
  apply (ranked_sublist_items u t ratings Hget) in Hin'.
  apply elem_of_predictions_of in Hin' as (_ & Hne & ->); [|done].
  assert (Ht : vector_in_range t) by (apply (Hr u); by apply get_Some_elem_of).
  destruct (weighted_sum_bounds u t ratings i Ht Hr) as (Hs & Hw0 & Hw5).
  apply round2_bounds, div_bounds; lra.
Qed.

Lemma load_ratings_store parsed :
  (load_ratings parsed).2 = []
  ∨ ∃ data, parsed = Ok data ∧ store_in_range data
            ∧ load_ratings parsed = ([], data).
Proof.
  destruct parsed as [data|e]; [|by left].
  unfold load_ratings. cbn [mbind result_bind].
  destruct (validate_cases data) as [[Hr ->]|(user & item & score & _ & ->)].
  - right. by exists data.
  - by left.
Qed.
End more_facts.

Section recommend_properties.
Local Open Scope R_scope.
Implicit Types (a b t rv : rating_vector) (ratings data : store).
Implicit Types (u i j : string) (n m : Z) (ps : list prediction).


(** X2.  [recommend] recommends no item twice and no item the target has
    rated; every recommended item was rated by another user. *)
Theorem recommend_new_distinct_items u t ratings n out res :
  get ratings u = Some t →
  recommend u ratings n = Ok (out, res) →
  NoDup res.*1
  ∧ ∀ i s, (i, s) ∈ res →
      (i ∉ keys t) ∧ ∃ v rv, (v, rv) ∈ ratings ∧ v ≠ u ∧ i ∈ keys rv.
Proof.
  intros Hget. rewrite recommend_ranked. intros [= _ <-]. split.
  - eapply sublist_NoDup; [apply NoDup_ranked_items|].
    apply fmap_sublist, py_slice_sublist.
  - intros i s Hin.
    assert (Hin' : (i, s) ∈ ranked u ratings)
      by (eapply elem_of_sublist; [done|apply py_slice_sublist]).
    apply (ranked_sublist_items u t ratings Hget) in Hin'.
    assert (Hi : i ∈ dedup_first (encounter_sequence u t ratings)).
    { eapply elem_of_sublist; [|apply predictions_of_items].
      by apply (list_elem_of_fmap_2 fst _ (i, s)). }
    rewrite elem_of_dedup_first, elem_of_encounter_sequence in Hi.
    destruct Hi as [Hit Hr]. split; [done|]. by apply other_raters_nonempty.
Qed.


(** X4.  For [0 <= n <= m] the result for [top_n = n] is the first [n]
    entries of the result for [top_n = m]. *)
Theorem recommend_prefix u ratings n m :
  (0 <= n <= m)%Z →
  ∃ out res_n res_m,
    recommend u ratings n = Ok (out, res_n)
    ∧ recommend u ratings m = Ok (out, res_m)
    ∧ res_n = take (Z.to_nat n) res_m.
Proof.
  intros Hnm. eexists _, _, _. rewrite !recommend_ranked.
  split; [done|]. split; [done|].
  rewrite !py_slice_nonneg, take_take by lia. f_equal. lia.
Qed.

(** X5.  A target that shares no item with any other user gets no
    recommendation: every similarity is 0 and every candidate item is
    left out. *)
Theorem recommend_no_overlap u t ratings n :
  store_wf ratings → get ratings u = Some t →
  (∀ v rv i, (v, rv) ∈ ratings → v ≠ u → i ∈ keys rv → i ∉ keys t) →
  ∃ out, recommend u ratings n = Ok (out, []).
Proof.
  intros [_ Hwf] Hget Hdisj. eexists. rewrite recommend_ranked. do 2 f_equal.
  assert (Hnil : ranked u ratings = []); [|by rewrite Hnil, py_slice_nil].
  destruct (ranked u ratings) as [|[i s] ps] eqn:Hr; [done|].
  assert (Hin : (i, s) ∈ predictions_of u t ratings).
  { apply ranked_sublist_items; [done|]. rewrite Hr. left. }
  apply elem_of_predictions_of in Hin as (_ & Hne & _); [|done].
  destruct Hne. unfold similarity_sum.
  assert (Hz : ∀ p, p ∈ other_raters u ratings i → similarity t p.2 = 0).
  { intros [v rv] [[Hv _] Hp]%list_elem_of_filter.
    apply similarity_disjoint. intros j Hj. by apply (Hdisj v rv). }
  induction (other_raters u ratings i) as [|p l IH].
  - by rewrite fmap_nil, Rsum_nil.
  - rewrite fmap_cons, Rsum_cons, IH, Hz.
    + lra.
    + left.
    + intros q Hq. apply Hz. by right.
Qed.
End recommend_properties.

Section similarity_properties.
Local Open Scope R_scope.
Implicit Types (a b : rating_vector) (l : list string) (i j : string).




Lemma Rsum_scal (c : R) (f : string → R) l :
  Rsum ((λ i, c * f i) <$> l) = c * Rsum (f <$> l).
Proof.
  induction l as [|i l IH].
  - rewrite !fmap_nil, Rsum_nil. lra.
  - rewrite !fmap_cons, !Rsum_cons, IH. lra.
Qed.

Lemma keys_scale c b : keys (scale c b) = keys b.
Proof.
  unfold keys, scale. rewrite <- list_fmap_compose. by apply list_fmap_ext.
Qed.

Lemma rating_scale c b i : rating (scale c b) i = c * rating b i.
Proof.
  unfold rating, scale. induction b as [|[k x] b IH].
  - simpl. lra.
  - rewrite fmap_cons. cbn [get fst snd]. case_decide; [done|apply IH].
Qed.



(** X8.  Multiplying all scores of one user by a positive factor does not
    change the similarity. *)
Theorem cosine_similarity_scale a b c :
  0 < c → cosine_similarity a (scale c b) = cosine_similarity a b.
Proof.
  intros Hc. rewrite !cosine_similarity_ok. f_equal. unfold similarity.
  assert (common_items a (scale c b) = common_items a b) as ->.
  { unfold common_items. by rewrite keys_scale. }
  set (l := elements (common_items a b)). unfold cosine_over.
  assert (Hd : dot a (scale c b) l = c * dot a b l).
  { unfold dot. rewrite <- Rsum_scal. f_equal. apply list_fmap_ext.
    intros _ i _. simpl. rewrite rating_scale. ring. }
  assert (Hn : sq_norm (scale c b) l = (c * c) * sq_norm b l).
  { unfold sq_norm. rewrite <- Rsum_scal. f_equal. apply list_fmap_ext.
    intros _ i _. simpl. rewrite rating_scale. ring. }
  assert (Hs : sqrt (sq_norm (scale c b) l) = c * sqrt (sq_norm b l)).
  { rewrite Hn, sqrt_mult, sqrt_square; [done|lra|nra|apply sq_norm_nonneg]. }
  rewrite Hd, Hs. destruct (decide (l = [])); [done|].
  pose proof (sqrt_pos (sq_norm a l)) as Hpa.
  pose proof (sqrt_pos (sq_norm b l)) as Hpb.
  destruct (decide (sqrt (sq_norm a l) = 0 ∨ sqrt (sq_norm b l) = 0))
    as [Hz|Hz].
  - rewrite decide_True; [done|]. destruct Hz as [->| ->]; [by left|right; lra].
  - rewrite decide_False by (intros [?|?]; apply Hz; [by left|right; nra]).
    field. split; [|split]; try lra; intros ?; apply Hz; tauto.
Qed.
End similarity_properties.

Section load_properties.
Local Open Scope R_scope.
Implicit Types (data ratings : store) (u i : string) (n : Z).

Lemma first_violation_not_in_range data user item score :
  first_violation data user item score → ¬ store_in_range data.
Proof.
  intros (pre & items & post & ipre & ipost & -> & -> & _ & _ & Hs) Hr.
  apply Hs, (Hr user (ipre ++ (item, score) :: ipost)) with item.
  - apply elem_of_app. right. left.
  - apply elem_of_app. right. left.
Qed.

Lemma load_accepts_in_range data :
  store_in_range data → load_ratings (Ok data) = ([], data).
Proof.
  intros Hr. unfold load_ratings. cbn [mbind result_bind].
  destruct (validate_cases data) as [[_ ->]|(user & item & score & Hfv & _)].
  - done.
  - by destruct (first_violation_not_in_range _ _ _ _ Hfv).
Qed.

Lemma loaded_store_in_range parsed : store_in_range (load_ratings parsed).2.
Proof.
  destruct (load_ratings_store parsed) as [->|(data & _ & Hr & ->)].
  - apply store_in_range_nil.
  - done.
Qed.

(** X9.  Whatever was read, every score of the store that [load_ratings]
    returns lies in [0, 5]. *)
Theorem load_ratings_in_range parsed : store_in_range (load_ratings parsed).2.
Proof.
  destruct parsed as [data|e]; [|apply store_in_range_nil].
  unfold load_ratings. cbn [mbind result_bind].
  destruct (validate_cases data) as [[Hr ->]|(user & item & score & _ & ->)].
  - done.
  - apply store_in_range_nil.
Qed.

(** X10.  Loading what [load_ratings] returned changes nothing and prints
    nothing. *)
Theorem load_ratings_idempotent parsed :
  load_ratings (Ok (load_ratings parsed).2) = ([], (load_ratings parsed).2).
Proof. apply load_accepts_in_range, loaded_store_in_range. Qed.

(** X11.  Every score that [recommend] returns on a store that came out of
    [load_ratings] lies in [0, 5]. *)
Theorem loaded_recommendations_in_range parsed u n out res i s :
  store_wf (load_ratings parsed).2 →
  recommend u (load_ratings parsed).2 n = Ok (out, res) →
  (i, s) ∈ res → 0 <= s <= 5.
Proof.
  intros Hwf. by apply recommend_scores_in_range, loaded_store_in_range.
Qed.
End load_properties.

Section main_properties.
Local Open Scope R_scope.
Implicit Types (data ratings : store) (u i : string) (n : Z).
Implicit Types (opened : result ()) (console : list console_line).

(** [main] on data that [load_ratings] accepts and that is not empty. *)
Lemma main_loaded data u opened :
  data ≠ [] → store_in_range data →
  main (Ok data) u opened
  = Ok (match take 3 (ranked u data) with
        | [] =>
            ([Prompt]
               ++ (Printed <$> match get data u with
                               | None | Some [] => [UserNotFound u]
                               | Some _ => []
                               end) ++ [NoResults], None)
        | recs =>
            ([Prompt] ++ [ResultsHeader]
               ++ ((λ p, ResultLine p.1 p.2) <$> recs)
               ++ (save_recommendations recs opened).1,
             (save_recommendations recs opened).2)
        end).
Proof.
  intros Hne Hr. unfold main. rewrite load_accepts_in_range by done.
  destruct data as [|e data]; [done|]. set (d := e :: data) in *.
  rewrite recommend_ranked. cbn [mbind result_bind].
  change (py_slice (ranked u d) 3) with (take 3 (ranked u d)).
  destruct (take 3 (ranked u d)) as [|p ps] eqn:Htake.
  - by rewrite fmap_nil, app_nil_l, <- app_assoc.
  - assert (Hget : ∃ e' t', get d u = Some (e' :: t')).
    { rewrite ranked_closed in Htake.
      destruct (get d u) as [[|e' t']|]; [done|by eexists _, _|done]. }
    destruct Hget as (e' & t' & ->).
    by destruct (save_recommendations (p :: ps) opened).
Qed.

(** [main] when [load_ratings] returns the empty store. *)
Lemma main_not_loaded parsed u opened :
  (load_ratings parsed).2 = [] →
  main parsed u opened = Ok (Printed <$> (load_ratings parsed).1, None).
Proof.
  intros Hnil. unfold main. destruct (load_ratings parsed) as [out ratings].
  simpl in Hnil. by subst.
Qed.


(** X13.  [main] asks for a user id exactly when the data is not empty and
    all its scores are in range; otherwise it writes no file. *)
Theorem main_prompts_iff data u opened :
  ∃ console file,
    main (Ok data) u opened = Ok (console, file)
    ∧ (Prompt ∈ console ↔ data ≠ [] ∧ store_in_range data)
    ∧ (Prompt ∉ console → file = None).
Proof.
  assert (Hno : ∀ out : list stdout_line, Prompt ∉ Printed <$> out).
  { intros out (l & [=] & _)%list_elem_of_fmap. }
  destruct (decide (data = [])) as [->|Hne].
  { eexists _, _. split; [by apply main_not_loaded|].
    split; [|done]. split; [by intros ?%Hno|by intros [? _]]. }
  destruct (load_ratings_store (Ok data)) as [Hnil|(d & [= <-] & Hr & Hl)].
  - eexists _, _. split; [by apply main_not_loaded|]. split; [|done].
    split; [by intros ?%Hno|]. intros [_ Hr].
    rewrite load_accepts_in_range in Hnil by done. done.
  - rewrite main_loaded by done.
    destruct (take 3 (ranked u data)); eexists _, _; (split; [done|]);
      (split; [split; [done|intros _; left]|intros []; left]).
Qed.

(** X14.  For a user id that is missing from the loaded store, or has no
    ratings there, [main] prints the prompt, that the user does not exist
    and that there are no recommendations, and writes no file. *)
Theorem main_unknown_user data u opened :
  data ≠ [] → store_in_range data →
  get data u = None ∨ get data u = Some [] →
  main (Ok data) u opened
  = Ok ([Prompt; Printed (UserNotFound u); NoResults], None).
Proof.
  intros Hne Hr Hget. rewrite main_loaded by done.
  assert (ranked u data = []) as ->.
  { rewrite ranked_closed. by destruct Hget as [-> | ->]. }
  rewrite take_nil. by destruct Hget as [-> | ->].
Qed.

(** X15.  The file [main] writes holds the first three entries of the
    sorted predictions: it is not empty, has at most three lines in
    descending order of the score, names no item twice, every score lies
    in [0, 5], and every line was printed on the console as well. *)
Theorem main_written_file data u opened console file :
  store_wf data →
  main (Ok data) u opened = Ok (console, Some file) →
  file = take 3 (ranked u data)
  ∧ file ≠ [] ∧ (length file ≤ 3)%nat
  ∧ sorted_desc file ∧ NoDup file.*1
  ∧ ∀ i s, (i, s) ∈ file → 0 <= s <= 5 ∧ ResultLine i s ∈ console.
Proof.
  intros Hwf Hmain.
  destruct (decide (data = [])) as [->|Hne].
  { by rewrite main_not_loaded in Hmain. }
  destruct (load_ratings_store (Ok data)) as [Hnil|(d & [= <-] & Hr & Hl)].
  { by rewrite main_not_loaded in Hmain. }
  rewrite main_loaded in Hmain by done.
  destruct (take 3 (ranked u data)) as [|p ps] eqn:Htake; [done|].
  destruct opened as [[]|e]; [|done]. cbn [save_recommendations fst snd] in Hmain.
  injection Hmain as <- <-. rewrite <- Htake.
  split; [done|]. split; [by rewrite Htake|].
  split; [rewrite length_take; lia|].
  split; [eapply StronglySorted_sublist;
          [apply sublist_take|apply ranked_sorted]|].
  split.
  { eapply sublist_NoDup; [apply NoDup_ranked_items|].
    apply fmap_sublist, sublist_take. }
  intros i s Hin. split.
  - eapply (recommend_scores_in_range u data 3);
      [done|done|apply recommend_ranked|done].
  - rewrite Htake in Hin. rewrite app_nil_r. do 2 right.
    by apply (list_elem_of_fmap_2 (λ p, ResultLine p.1 p.2) (p :: ps) (i, s)).
Qed.

End main_properties.

Section order_properties.
Local Open Scope R_scope.
Implicit Types (t rv : rating_vector) (ratings : store).
Implicit Types (u i : string) (n : Z).





(** X18.  For [0 <= n] no prediction that [recommend] leaves out has a
    higher score than one it returns. *)
Theorem recommend_returns_highest u ratings n out res x y :
  (0 <= n)%Z → recommend u ratings n = Ok (out, res) →
  x ∈ res → y ∈ drop (Z.to_nat n) (ranked u ratings) → y.2 <= x.2.
Proof.
  intros Hn. rewrite recommend_ranked, py_slice_nonneg by done.
  intros [= _ <-] Hx Hy.
  pose proof (ranked_sorted u ratings) as Hs. unfold sorted_desc in Hs.
  rewrite <- (take_drop (Z.to_nat n) (ranked u ratings)) in Hs.
  by apply (StronglySorted_app_1_elem_of _ _ _ x y) in Hs.
Qed.
End order_properties.

(** ** The further properties at the example stores *)

Section more_examples.
Local Open Scope R_scope.
Local Open Scope string_scope.

Ltac distinct_keys := apply (bool_decide_unpack _); by vm_compute.

Lemma scenario_a_ranked : ranked "u1" scenario_a = [("c", 9 / 2)].
Proof.
  rewrite ranked_closed. simpl get. cbv iota.
  rewrite predictions_of_spec by apply scenario_a_wf.
  assert (dedup_first (encounter_sequence "u1" [("a", 5); ("b", 3)] scenario_a)
          = ["c"]) as -> by reflexivity.
  cbn [omap list_omap]. destruct scenario_a_sums as [Hs Hw].
  rewrite (predicted_spec_eval _ _ _ "c" 450) by (rewrite ?Hs, ?Hw; lra).
  unfold sort_desc. cbn [foldr insert_desc].
  by replace (450 / 100) with (9 / 2) by lra.
Qed.

(** [main] on scenario A. *)
Example main_scenario_a :
  main (Ok scenario_a) "u1" (Ok ())
  = Ok ([Prompt; ResultsHeader; ResultLine "c" (9 / 2)], Some [("c", 9 / 2)]).
Proof.
  rewrite main_loaded; [|done|apply scenario_a_in_range].
  by rewrite scenario_a_ranked.
Qed.

Lemma scenario_c_wf : store_wf scenario_c.
Proof.
  split; [distinct_keys|]. intros u rv Hin. unfold scenario_c in Hin.
  repeat (apply elem_of_cons in Hin as [[= -> ->]|Hin]; [distinct_keys|]).
  by apply elem_of_nil in Hin.
Qed.

Lemma recommend_new_distinct_items_witness :
  NoDup [("c", 9 / 2)].*1
  ∧ ("c" ∉ keys [("a", 5); ("b", 3)])
  ∧ ∃ v rv, (v, rv) ∈ scenario_a ∧ v ≠ "u1" ∧ "c" ∈ keys rv.
Proof.
  destruct (recommend_new_distinct_items "u1" [("a", 5); ("b", 3)] scenario_a
              2 [] [("c", 9 / 2)]) as [Hnd Hin];
    [reflexivity|apply recommend_scenario_a|].
  split; [done|]. apply (Hin "c" (9 / 2)). left.
Defined.

Lemma recommend_prefix_witness :
  ∃ out res_1 res_3,
    recommend "u1" tie_store 1 = Ok (out, res_1)
    ∧ recommend "u1" tie_store 3 = Ok (out, res_3)
    ∧ res_1 = take 1 res_3.
Proof. apply (recommend_prefix "u1" tie_store 1 3). lia. Defined.

Lemma recommend_no_overlap_witness :
  ∃ out, recommend "u1" scenario_c 3 = Ok (out, []).
Proof.
  apply (recommend_no_overlap "u1" [("z", 4)] scenario_c 3).
  - apply scenario_c_wf.
  - reflexivity.
  - intros v rv i Hin Hv Hi Hz. unfold scenario_c in Hin.
    change (i ∈ ["z"]) in Hz. apply list_elem_of_singleton in Hz as ->.
    apply elem_of_cons in Hin as [[= -> ->]|Hin]; [done|].
    apply elem_of_cons in Hin as [[= -> ->]|Hin]; [|by apply elem_of_nil in Hin].
    change ("z" ∈ ["a"; "b"]) in Hi.
    apply elem_of_cons in Hi as [[=]|Hi].
    apply elem_of_cons in Hi as [[=]|Hi]. by apply elem_of_nil in Hi.
Defined.



Lemma cosine_similarity_scale_witness :
  cosine_similarity [("a", 5); ("b", 3)] (scale 2 [("a", 2); ("c", 1)])
  = cosine_similarity [("a", 5); ("b", 3)] [("a", 2); ("c", 1)].
Proof. apply cosine_similarity_scale. lra. Defined.

Lemma loaded_recommendations_in_range_witness :
  store_wf (load_ratings (Ok scenario_a)).2 ∧ 0 <= 9 / 2 <= 5.
Proof.
  assert (Hwf : store_wf (load_ratings (Ok scenario_a)).2)
    by (rewrite load_ratings_scenario_a; apply scenario_a_wf).
  split; [done|].
  apply (loaded_recommendations_in_range (Ok scenario_a) "u1" 2 []
           [("c", 9 / 2)] "c"); [done| |left].
  rewrite load_ratings_scenario_a. apply recommend_scenario_a.
Defined.

Lemma main_unknown_user_witness :
  main (Ok scenario_a) "ghost" (Ok ())
  = Ok ([Prompt; Printed (UserNotFound "ghost"); NoResults], None).
Proof.
  apply main_unknown_user; [done|apply scenario_a_in_range|by left].
Defined.

Lemma main_written_file_witness :
  [("c", 9 / 2)] = take 3 (ranked "u1" scenario_a)
  ∧ ResultLine "c" (9 / 2) ∈ [Prompt; ResultsHeader; ResultLine "c" (9 / 2)].
Proof.
  destruct (main_written_file scenario_a "u1" (Ok ())
              [Prompt; ResultsHeader; ResultLine "c" (9 / 2)]
              [("c", 9 / 2)] scenario_a_wf main_scenario_a)
    as (Hfile & _ & _ & _ & _ & Hin).
  split; [done|]. apply (Hin "c" (9 / 2)). left.
Defined.

Lemma tie_store_ranked_all : ranked "u1" tie_store = [("c", 1); ("b", 1)].
Proof. rewrite ranked_closed. simpl get. cbv iota. apply tie_store_ranked. Qed.

Lemma recommend_returns_highest_witness :
  (("b", 1) : prediction).2 <= (("c", 1) : prediction).2.
Proof.
  apply (recommend_returns_highest "u1" tie_store 1 [] [("c", 1)]
           ("c", 1) ("b", 1)).
  - lia.
  - rewrite recommend_ranked, tie_store_ranked_all. reflexivity.
  - left.
  - rewrite tie_store_ranked_all. left.
Defined.
End more_examples.
